(** * brent_search: the bracket finder and the minimize orchestrator

    A shallow embedding of [brent_search/_bracket.py] and
    [brent_search/optimize.py].

    The Python code is duck-typed over its numbers: it only adds, subtracts,
    multiplies, divides, takes absolute values and compares.  The embedding
    keeps that interface as the class [Number] and gives it two instances:
    - [float], IEEE binary64 (the kernel's primitive floats), which is what
      Python's [float] is;
    - [Q], exact rational arithmetic (Python's [fractions.Fraction]), where
      the statements that need real arithmetic are proved.

    The objective [f] is a callback.  Code that calls it is a tree of calls
    ([prog]): the tree is run against a pure function ([run], [evals]) or
    against a stateful handler ([exec]), which is how [minimize] counts the
    evaluations. *)

From Stdlib Require Import ZArith QArith Qabs Floats Bool List Lia Lra Psatz.
From Stdlib Require Import Morphisms.
Import ListNotations.

Set Implicit Arguments.

(** ** Numbers *)

(** What the code asks of its numbers.  [of_int] is the coercion Python
    applies to an [int] literal that meets a number of the type. *)
Class Number (T : Type) : Type := {
  of_int : Z -> T;
  n_add : T -> T -> T;
  n_sub : T -> T -> T;
  n_mul : T -> T -> T;
  n_div : T -> T -> T;
  n_abs : T -> T;
  n_lt : T -> T -> bool;
  n_le : T -> T -> bool;
  n_eq : T -> T -> bool
}.

Declare Scope num_scope.
Delimit Scope num_scope with num.
Notation "x + y" := (n_add x y) : num_scope.
Notation "x - y" := (n_sub x y) : num_scope.
Notation "x * y" := (n_mul x y) : num_scope.
Notation "x / y" := (n_div x y) : num_scope.
Notation "x <? y" := (n_lt x y) (at level 70, no associativity) : num_scope.
Notation "x >? y" := (n_lt y x) (at level 70, no associativity, only parsing) : num_scope.
Notation "x <=? y" := (n_le x y) (at level 70, no associativity) : num_scope.
Notation "x =? y" := (n_eq x y) (at level 70, no associativity) : num_scope.
Notation "x !=? y" := (negb (n_eq x y)) (at level 70, no associativity) : num_scope.

(** ** Programs that call the objective *)

(** [Call x k]: evaluate the objective at [x] and go on with [k] applied to
    its value.  [AssertionError]: a failed [assert]. *)
Inductive prog (T A : Type) : Type :=
| Ret (r : A)
| Call (x : T) (k : T -> prog T A)
| AssertionError.

Arguments Ret {T A} r.
Arguments Call {T A} x k.
Arguments AssertionError {T A}.

Fixpoint bind {T A B : Type} (p : prog T A) (k : A -> prog T B) : prog T B :=
  match p with
  | Ret r => k r
  | Call x h => Call x (fun y => bind (h y) k)
  | AssertionError => AssertionError
  end.

Definition assert {T : Type} (c : bool) : prog T unit :=
  if c then Ret tt else AssertionError.

Declare Scope prog_scope.
Delimit Scope prog_scope with prog.
Notation "v <- 'call' x ;; p" := (Call x (fun v => p))
  (at level 100, x at next level, right associativity) : prog_scope.
Notation "v <- q ;; p" := (bind q (fun v => p))
  (at level 100, q at next level, right associativity) : prog_scope.
Notation "'assert!' c ;; p" := (bind (assert c) (fun _ => p))
  (at level 100, c at next level, right associativity) : prog_scope.

(** How a call ends: with a value, or with the assertion error. *)
Inductive outcome (A : Type) : Type :=
| Returned (r : A)
| Raised.

Arguments Returned {A} r.
Arguments Raised {A}.

(** [run f p]: the outcome of [p] when the objective is the pure [f]. *)
Fixpoint run {T A : Type} (f : T -> T) (p : prog T A) : outcome A :=
  match p with
  | Ret r => Returned r
  | Call x k => run f (k (f x))
  | AssertionError => Raised
  end.

(** [evals f p]: the abscissas at which [p] evaluates [f], in order. *)
Fixpoint evals {T A : Type} (f : T -> T) (p : prog T A) : list T :=
  match p with
  | Ret _ => []
  | Call x k => x :: evals f (k (f x))
  | AssertionError => []
  end.

(** [exec h p s]: [p] run against a callable [h] that reads and writes a
    state of type [S]. *)
Fixpoint exec {T A S : Type} (h : T -> S -> T * S) (p : prog T A) (s : S)
  : outcome A * S :=
  match p with
  | Ret r => (Returned r, s)
  | Call x k => let '(y, s') := h x s in exec h (k y) s'
  | AssertionError => (Raised, s)
  end.

(** ** _bracket.py *)

Section Bracket.

Context {T : Type} `{Number T}.
Local Open Scope num_scope.
Local Open Scope prog_scope.

(** The returned tuple [(x0, x1, x2, f0, f1, f2)]. *)
Definition sol : Type := (T * T * T * T * T * T)%type.

(** Python's two-argument [max] and [min]: the second argument wins only
    when it compares strictly greater (smaller). *)
Definition py_max (x y : T) : T := if y >? x then y else x.
Definition py_min (x y : T) : T := if y <? x then y else x.

(** [sorted]: a stable insertion sort from the left, which is what
    Python's sort does on the lists of at most two items it gets here. *)
Fixpoint insert (x : T) (l : list T) : list T :=
  match l with
  | [] => [x]
  | y :: l' => if x <? y then x :: y :: l' else y :: insert x l'
  end.

Definition sorted (l : list T) : list T :=
  fold_left (fun acc x => insert x acc) l [].

(** [[xi for xi in l if xi is not None]] *)
Definition not_none (l : list (option T)) : list T :=
  flat_map (fun xi => match xi with Some v => [v] | None => [] end) l.

(** The chained comparison [f0 > f1 < f2]. *)
Definition bracketing (f0 f1 f2 : T) : bool := (f0 >? f1) && (f1 <? f2).

Definition _sort (x0 x1 x2 f0 f1 f2 : T) : sol :=
  if x0 >? x2 then (x2, x1, x0, f2, f1, f0) else (x0, x1, x2, f0, f1, f2).

Definition _boundary_equal (x a b : T) : bool := (x =? a) || (x =? b).

Definition _boundary_inside (x a b : T) : bool := (a <? x) && (x <? b).

Definition _ensure_boundary (x a b : T) : T := py_max (py_min x b) a.

Definition _tol (x rtol atol : T) : T := n_abs x * rtol + atol.

Definition _initialize_interval (x0 x1 : option T) (a b gfactor rtol atol : T)
  : T * T :=
  let x := sorted (not_none [x0; x1]) in
  let '(x0, x1) :=
    match x with
    | [] => (py_min (py_max (of_int 0) a) b, x1)
    | [u] => (u, x1)
    | u :: v :: _ => (u, Some v)
    end in
  let x1 :=
    match x1 with
    | Some v => v
    | None =>
        if (x0 - a) >? (b - x0) then
          let x1 := x0 - of_int 10 * gfactor * _tol x0 rtol atol in
          py_max x1 a
        else
          let x1 := x0 + of_int 10 * gfactor * _tol x0 rtol atol in
          py_min x1 b
    end in
  (x0, x1).

Definition _resolve_equal_fvalue (x0 x1 f0 f1 : T) : prog T (sol * Z) :=
  let x2 := x0 / of_int 2 + x1 / of_int 2 in
  f2 <- call x2 ;;
  let '(x2, x1) := (x1, x2) in
  let '(f2, f1) := (f1, f2) in
  let ecode := if negb (bracketing f0 f1 f2) then 5%Z else 1%Z in
  Ret (_sort x0 x1 x2 f0 f1 f2, ecode).

Section Loop.

Variables (a b gfactor : T) (maxiter : Z).

(** The new point of one expansion step. *)
Definition next_point (x1 x2 : T) : T :=
  _ensure_boundary (x2 + gfactor * (x2 - x1)) a b.

(** The loop's guard. *)
Definition continue (nit : Z) (x2 f0 f1 f2 : T) : bool :=
  negb (bracketing f0 f1 f2) && (nit <? maxiter)%Z && _boundary_inside x2 a b.

(** The [while] loop, with its variables as arguments and the value
    [(nit, x0, x1, x2, f0, f1, f2)] they have when it exits.  [fuel]
    bounds the number of iterations; [Z.to_nat maxiter] is enough
    ([expansion_unfold] below), since the guard asks [nit < maxiter]. *)
Fixpoint expansion (fuel : nat) (nit : Z) (x0 x1 x2 f0 f1 f2 : T)
  : prog T (Z * sol) :=
  if continue nit x2 f0 f1 f2 then
    match fuel with
    | O => Ret (nit, (x0, x1, x2, f0, f1, f2))
    | S fuel' =>
        let nit := (nit + 1)%Z in
        let xt := next_point x1 x2 in
        ft <- call xt ;;
        expansion fuel' nit x1 x2 xt f1 f2 ft
    end
  else Ret (nit, (x0, x1, x2, f0, f1, f2)).

End Loop.

Definition bracket (x0 x1 : option T) (a b gfactor rtol atol : T) (maxiter : Z)
  : prog T (sol * Z) :=
  assert! (gfactor >? of_int 1) ;;
  assert! (maxiter >? 0)%Z ;;
  let '(x0, x1) := _initialize_interval x0 x1 a b gfactor rtol atol in
  f0 <- call x0 ;;
  f1 <- call x1 ;;
  let '(x0, x1, f0, f1) :=
    if f0 <? f1 then (x1, x0, f1, f0) else (x0, x1, f0, f1) in
  if n_abs (x0 - x1) <? of_int 2 * _tol x0 rtol atol then
    Ret (_sort x0 x1 x1 f0 f1 f1, 3%Z)
  else if f0 =? f1 then
    _resolve_equal_fvalue x0 x1 f0 f1
  else
    assert! ((a <=? x0) && (x0 <=? b)) ;;
    assert! ((a <=? x1) && (x1 <=? b)) ;;
    assert! (x0 !=? x1) ;;
    assert! (f0 !=? f1) ;;
    if _boundary_equal x1 a b then
      let x2 := x1 in
      let f2 := f1 in
      Ret (_sort x0 x1 x2 f0 f1 f2, 2%Z)
    else
      let x2 := _ensure_boundary (x1 + (x1 - x0) * gfactor) a b in
      f2 <- call x2 ;;
      if f1 =? f2 then
        _resolve_equal_fvalue x1 x2 f1 f2
      else
        r <- expansion a b gfactor maxiter (Z.to_nat maxiter) 0 x0 x1 x2 f0 f1 f2 ;;
        let '(nit, (x0, x1, x2, f0, f1, f2)) := r in
        if bracketing f0 f1 f2 then
          Ret (_sort x0 x1 x2 f0 f1 f2, 1%Z)
        else if (nit =? maxiter)%Z then
          Ret (_sort x0 x1 x2 f0 f1 f2, 4%Z)
        else
          Ret (_sort x0 x1 x2 f0 f1 f2, 2%Z).

End Bracket.

(** ** Objectives that decrease over the bounds *)

Section Decreasing.

Context {T : Type} `{Number T}.
Local Open Scope num_scope.

(** [f] decreases over [[a, b]]: weakly (what "monotonically decreasing"
    says) and strictly. *)
Definition monotonically_decreasing (a b : T) (f : T -> T) : Prop :=
  forall x y, (a <=? x) = true -> (x <=? y) = true -> (y <=? b) = true ->
              (f y <=? f x) = true.

Definition strictly_decreasing (a b : T) (f : T -> T) : Prop :=
  forall x y, (a <=? x) = true -> (x <? y) = true -> (y <=? b) = true ->
              (f y <? f x) = true.

Variables (a b gfactor : T) (maxiter : Z).

(** The abscissas of the expansion loop when no bracket shows up (as with a
    decreasing objective): the window slides on until [maxiter] or a bound
    stops it.  The result is [(nit, (x0, x1, x2))] at the exit. *)
Fixpoint slide (fuel : nat) (nit : Z) (x0 x1 x2 : T) : Z * (T * T * T) :=
  if (nit <? maxiter)%Z && _boundary_inside x2 a b then
    match fuel with
    | O => (nit, (x0, x1, x2))
    | S fuel' => slide fuel' (nit + 1) x1 x2 (next_point a b gfactor x1 x2)
    end
  else (nit, (x0, x1, x2)).

(** The points of that slide go up and stay within the bounds. *)
Fixpoint ascending (fuel : nat) (nit : Z) (x1 x2 : T) : bool :=
  (a <=? x1) && (x1 <? x2) && (x2 <=? b) &&
  (if (nit <? maxiter)%Z && _boundary_inside x2 a b then
     match fuel with
     | O => true
     | S fuel' => ascending fuel' (nit + 1) x2 (next_point a b gfactor x1 x2)
     end
   else true).

End Decreasing.

(** ** optimize.py *)

Section Minimize.

Context {T : Type} `{Number T}.
Local Open Scope prog_scope.

(** [brent] is imported from a module that is not part of the sources at
    hand: it is a parameter here.  All that is assumed of it is that it is
    a terminating program whose only effect is to call the function it is
    given; [R] stands for what its result holds after the first two
    components. *)
Variable R : Type.
Variable brent : T -> T -> T -> T -> T -> T -> T -> T -> Z -> prog T (T * T * R).

(** The objective the caller supplies, as a callable acting on a state [W]
    of the caller's own (a pure objective leaves it alone). *)
Variable W : Type.
Variable f : T -> W -> T * W.

(** The wrapper [func] and its attribute [func.nfev]. *)
Definition func (x : T) (st : Z * W) : T * (Z * W) :=
  let '(nfev, w) := st in
  let nfev := (nfev + 1)%Z in
  let '(y, w) := f x w in
  (y, (nfev, w)).

(** The body of [minimize], as a program over the function it passes on. *)
Definition minimize_calls (x0 x1 : option T) (a b gfactor rtol atol : T)
    (maxiter : Z) : prog T (T * T) :=
  res <- bracket x0 x1 a b gfactor rtol atol maxiter ;;
  let '(r, _) := res in
  let '(x0, x1, x2, f0, f1, f2) := r in
  out <- brent x0 x2 f0 f2 x1 f1 rtol atol maxiter ;;
  let '(x0, f0, _) := out in
  Ret (x0, f0).

Definition minimize (x0 x1 : option T) (a b gfactor rtol atol : T)
    (maxiter : Z) (w : W) : outcome (T * T * Z) * W :=
  let nfev := 0%Z in
  match exec func (minimize_calls x0 x1 a b gfactor rtol atol maxiter) (nfev, w) with
  | (Returned (x0, f0), (nfev, w)) => (Returned (x0, f0, nfev), w)
  | (Raised, (_, w)) => (Raised, w)
  end.

End Minimize.

(** The caller's instrumentation of an objective [g]: a counter of the
    caller's own, bumped at each invocation of [g]. *)
Definition counted {T W : Type} (g : T -> W -> T * W) (x : T) (st : nat * W)
  : T * (nat * W) :=
  let '(c, w) := st in
  let '(y, w) := g x w in
  (y, (S c, w)).

(** ** The two number types *)

(** *** binary64 *)

Definition float_of_int (z : Z) : float :=
  match z with
  | Z0 => 0%float
  | Zpos _ => of_uint63 (Uint63.of_Z z)
  | Zneg p => (- of_uint63 (Uint63.of_Z (Zpos p)))%float
  end.

#[export] Instance Number_float : Number float := {
  of_int := float_of_int;
  n_add := PrimFloat.add;
  n_sub := PrimFloat.sub;
  n_mul := PrimFloat.mul;
  n_div := PrimFloat.div;
  n_abs := PrimFloat.abs;
  n_lt := PrimFloat.ltb;
  n_le := PrimFloat.leb;
  n_eq := PrimFloat.eqb
}.

(** The module's constants: [inf = float("inf")] and [_eps], which is
    [2^-26]. *)
Definition inf : float := infinity.
#[warnings="-inexact-float"]
Definition _eps : float := 1.4901161193847656e-08%float.

(** *** Exact rationals *)

Definition Qlt_bool (x y : Q) : bool := negb (Qle_bool y x).

#[export] Instance Number_Q : Number Q := {
  of_int := inject_Z;
  n_add := Qplus;
  n_sub := Qminus;
  n_mul := Qmult;
  n_div := Qdiv;
  n_abs := Qabs;
  n_lt := Qlt_bool;
  n_le := Qle_bool;
  n_eq := Qeq_bool
}.

(** [_eps], which is [2^-26], as a rational. *)
Definition _eps_Q : Q := 1 # 67108864.

(** ** Objectives used as examples *)

(** [lambda x: (x - c)**2] and [lambda x: 0.0]. *)
Definition parabola {T : Type} `{Number T} (c x : T) : T :=
  n_mul (n_sub x c) (n_sub x c).

Definition flat {T : Type} `{Number T} (x : T) : T := of_int 0.

(** [lambda x: -x] on floats. *)
Definition downhill (x : float) : float := (- x)%float.

(** [lambda x: -x if x < 2 else -2.0] on floats: downhill, then flat. *)
Definition plateau (x : float) : float :=
  if PrimFloat.ltb x 2 then (- x)%float else (- 2)%float.

(** A stand-in for [brent] that evaluates the function once, at the middle
    point it is given. *)
Definition brent_once {T : Type} (a b fa fb xm fm rtol atol : T) (maxiter : Z)
  : prog T (T * T * unit) :=
  Call xm (fun y => Ret (xm, y, tt)).

(** ** What the claims say, over the exact rationals *)

Section Statements.

Local Open Scope Q_scope.

(** Strict convexity, and a minimum strictly inside [[a, b]]. *)
Definition strictly_convex (f : Q -> Q) : Prop :=
  forall x y t : Q, ~ x == y -> 0 < t -> t < 1 ->
    f (t * x + (1 - t) * y) < t * f x + (1 - t) * f y.


(** The abscissas of a returned tuple: strictly increasing, non-decreasing,
    within the bounds; and its values: those of a bracket. *)
Definition increasing (t : sol (T:=Q)) : Prop :=
  let '(x0, x1, x2, _, _, _) := t in x0 < x1 /\ x1 < x2.

Definition nondecreasing (t : sol (T:=Q)) : Prop :=
  let '(x0, x1, x2, _, _, _) := t in x0 <= x1 /\ x1 <= x2.

Definition within (a b : Q) (t : sol (T:=Q)) : Prop :=
  let '(x0, _, x2, _, _, _) := t in a <= x0 /\ x2 <= b.

Definition is_bracket (t : sol (T:=Q)) : Prop :=
  let '(_, _, _, f0, f1, f2) := t in f0 > f1 /\ f1 < f2.

(** Three points in a row, going up or going down, the outer two within
    the bounds: what the loop keeps true of its window. *)
Definition in_a_row (a b x0 x1 x2 : Q) : Prop :=
  a <= x0 /\ x0 <= b /\ a <= x2 /\ x2 <= b /\
  (x0 < x1 /\ x1 < x2 \/ x2 < x1 /\ x1 < x0).

(** A starting point, when one is supplied, lies within the bounds. *)
Definition start_within (a b : Q) (x : option Q) : Prop :=
  match x with
  | Some v => a <= v /\ v <= b
  | None => True
  end.

End Statements.

(** ** The order laws a number type may satisfy

    Both instances do (binary64 with its NaN included: every comparison with
    a NaN is false, which the laws allow). *)
Class OrderLaws (T : Type) `{Number T} : Prop := {
  lt_asym : forall x y : T, n_lt x y = true -> n_lt y x = false;
  lt_not_eq : forall x y : T, n_lt x y = true -> n_eq x y = false /\ n_eq y x = false;
  le_not_lt : forall x y : T, n_le x y = true -> n_lt y x = false;
  le_trans : forall x y z : T, n_le x y = true -> n_le y z = true -> n_le x z = true
}.

Arguments OrderLaws T {_}.

(** ** Running programs *)

Section ProgFacts.

Context {T A B : Type}.
Implicit Types (p : prog T A) (k : A -> prog T B).

Lemma run_bind (f : T -> T) p k :
  run f (bind p k) =
  match run f p with Returned r => run f (k r) | Raised => Raised end.
Proof. induction p as [r|x h IH|]; simpl; auto. Qed.

Lemma evals_bind (f : T -> T) p k :
  evals f (bind p k) =
  evals f p ++ match run f p with Returned r => evals f (k r) | Raised => [] end.
Proof.
  induction p as [r|x h IH|]; simpl; auto.
  now rewrite IH.
Qed.

Lemma exec_bind {S : Type} (h : T -> S -> T * S) p k (s : S) :
  exec h (bind p k) s =
  match exec h p s with
  | (Returned r, s') => exec h (k r) s'
  | (Raised, s') => (Raised, s')
  end.
Proof.
  revert s; induction p as [r|x g IH|]; simpl; intros s; auto.
  destruct (h x s) as [y s']. apply IH.
Qed.

End ProgFacts.

(** ** Facts that hold for every number type *)

(** Splits on the first boolean test in the goal. *)
Ltac case_if :=
  match goal with
  | |- context [if ?c then _ else _] =>
      lazymatch type of c with bool => destruct c eqn:? end
  end.

Section BracketFacts.

Context {T : Type} `{Number T}.
Local Open Scope num_scope.
Local Open Scope prog_scope.

Variable f : T -> T.

(** [Z.to_nat maxiter] is fuel enough: with at least [maxiter - nit] of it
    the loop obeys the equation of the [while] it models, the branch for
    exhausted fuel being out of reach. *)
Lemma expansion_unfold (a b gfactor : T) (maxiter : Z) fuel nit x0 x1 x2 f0 f1 f2 :
  (maxiter - nit <= Z.of_nat fuel)%Z ->
  expansion a b gfactor maxiter fuel nit x0 x1 x2 f0 f1 f2 =
  if continue a b maxiter nit x2 f0 f1 f2 then
    ft <- call next_point a b gfactor x1 x2 ;;
    expansion a b gfactor maxiter (Nat.pred fuel) (nit + 1) x1 x2
      (next_point a b gfactor x1 x2) f1 f2 ft
  else Ret (nit, (x0, x1, x2, f0, f1, f2)).
Proof.
  intros Hfuel. destruct fuel as [|fuel]; simpl.
  - destruct (continue a b maxiter nit x2 f0 f1 f2) eqn:E; auto.
    unfold continue in E. apply andb_prop in E as [E _].
    apply andb_prop in E as [_ E]. apply Z.ltb_lt in E. simpl in Hfuel. lia.
  - reflexivity.
Qed.

Lemma bracketing_rev (f0 f1 f2 : T) : bracketing f2 f1 f0 = bracketing f0 f1 f2.
Proof. unfold bracketing. apply andb_comm. Qed.

(** [_sort] returns its arguments as they are or reversed. *)
Lemma _sort_cases (x0 x1 x2 f0 f1 f2 : T) :
  _sort x0 x1 x2 f0 f1 f2 = (x0, x1, x2, f0, f1, f2) /\ (x0 >? x2) = false \/
  _sort x0 x1 x2 f0 f1 f2 = (x2, x1, x0, f2, f1, f0) /\ (x0 >? x2) = true.
Proof. unfold _sort. destruct (x0 >? x2); auto. Qed.

Lemma _sort_bracketing (x0 x1 x2 f0 f1 f2 y0 y1 y2 g0 g1 g2 : T) :
  _sort x0 x1 x2 f0 f1 f2 = (y0, y1, y2, g0, g1, g2) ->
  bracketing g0 g1 g2 = bracketing f0 f1 f2.
Proof.
  destruct (_sort_cases x0 x1 x2 f0 f1 f2) as [[E _]|[E _]];
    rewrite E; intros [= <- <- <- <- <- <-]; auto using bracketing_rev.
Qed.

(** What [_resolve_equal_fvalue] does: one evaluation, at the midpoint
    [x0/2 + x1/2]; status 1 when the midpoint's value is strictly below
    both ends', 5 otherwise. *)
Lemma run_resolve_equal_fvalue (x0 x1 f0 f1 : T) :
  let xm := x0 / of_int 2 + x1 / of_int 2 in
  run f (_resolve_equal_fvalue x0 x1 f0 f1) =
    Returned (_sort x0 xm x1 f0 (f xm) f1,
              if bracketing f0 (f xm) f1 then 1%Z else 5%Z) /\
  evals f (_resolve_equal_fvalue x0 x1 f0 f1) = [xm].
Proof.
  simpl. destruct (bracketing f0 _ f1); auto.
Qed.

(** The loop evaluates [f] at most [maxiter - nit] times. *)
Lemma evals_expansion (a b gfactor : T) (maxiter : Z) fuel :
  forall nit x0 x1 x2 f0 f1 f2,
    (Z.of_nat (length (evals f
       (expansion a b gfactor maxiter fuel nit x0 x1 x2 f0 f1 f2)))
     <= Z.max 0 (maxiter - nit))%Z.
Proof.
  induction fuel as [|fuel IH]; intros nit x0 x1 x2 f0 f1 f2; simpl.
  - destruct (continue a b maxiter nit x2 f0 f1 f2); simpl; lia.
  - destruct (continue a b maxiter nit x2 f0 f1 f2) eqn:E; simpl; [|lia].
    unfold continue in E. apply andb_prop in E as [E _].
    apply andb_prop in E as [_ E]. apply Z.ltb_lt in E.
    specialize (IH (nit + 1)%Z x1 x2 (next_point a b gfactor x1 x2) f1 f2
                   (f (next_point a b gfactor x1 x2))).
    lia.
Qed.

(** The loop always returns (it has no assertion). *)
Lemma run_expansion (a b gfactor : T) (maxiter : Z) fuel :
  forall nit x0 x1 x2 f0 f1 f2,
  exists r, run f (expansion a b gfactor maxiter fuel nit x0 x1 x2 f0 f1 f2)
            = Returned r.
Proof.
  induction fuel as [|fuel IH]; intros nit x0 x1 x2 f0 f1 f2; simpl.
  - destruct (continue a b maxiter nit x2 f0 f1 f2); simpl; eauto.
  - destruct (continue a b maxiter nit x2 f0 f1 f2); simpl; eauto.
Qed.

(** C9: whenever [bracket] returns exit code 1, the returned values obey
    [f0 > f1 < f2], whatever the objective and the arguments. *)
Theorem bracket_found_is_bracketing
    (x0 x1 : option T) (a b gfactor rtol atol : T) (maxiter : Z)
    (y0 y1 y2 g0 g1 g2 : T) :
  run f (bracket x0 x1 a b gfactor rtol atol maxiter)
    = Returned ((y0, y1, y2, g0, g1, g2), 1%Z) ->
  (g0 >? g1) = true /\ (g1 <? g2) = true.
Proof.
  assert (Hfin : forall u0 u1 u2 v0 v1 v2 (e : Z),
             Returned (_sort u0 u1 u2 v0 v1 v2, e)
               = Returned ((y0, y1, y2, g0, g1, g2), 1%Z) ->
             (e = 1%Z -> bracketing v0 v1 v2 = true) ->
             (g0 >? g1) = true /\ (g1 <? g2) = true).
  { intros u0 u1 u2 v0 v1 v2 e [= Hs ->] Hb.
    apply _sort_bracketing in Hs. rewrite Hb in Hs by reflexivity.
    now apply andb_prop in Hs. }
  unfold bracket.
  destruct (gfactor >? of_int 1); cbn [bind assert run]; [|discriminate].
  destruct (maxiter >? 0)%Z; cbn [bind assert run]; [|discriminate].
  destruct (_initialize_interval x0 x1 a b gfactor rtol atol) as [p q].
  cbn [run].
  destruct (if f p <? f q then (q, p, f q, f p) else (p, q, f p, f q))
    as [[[u0 u1] v0] v1].
  case_if; [intros E; apply (Hfin _ _ _ _ _ _ _ E); discriminate|].
  case_if.
  { unfold _resolve_equal_fvalue; cbn [run]. intros E.
    apply (Hfin _ _ _ _ _ _ _ E). destruct (bracketing _ _ _); auto; discriminate. }
  repeat (rewrite run_bind; unfold assert at 1; case_if; cbn [run]; [|discriminate]).
  case_if; [intros E; apply (Hfin _ _ _ _ _ _ _ E); discriminate|].
  cbn [run]. case_if.
  { unfold _resolve_equal_fvalue; cbn [run]. intros E.
    apply (Hfin _ _ _ _ _ _ _ E). destruct (bracketing _ _ _); auto; discriminate. }
  rewrite run_bind.
  destruct (run_expansion a b gfactor maxiter (Z.to_nat maxiter) 0 u0 u1
              (_ensure_boundary (u1 + (u1 - u0) * gfactor) a b) v0 v1
              (f (_ensure_boundary (u1 + (u1 - u0) * gfactor) a b)))
    as [[nit [[[[[w0 w1] w2] h0] h1] h2]] ->].
  destruct (bracketing h0 h1 h2) eqn:Eb; cbn [run].
  { intros E. apply (Hfin _ _ _ _ _ _ _ E). auto. }
  case_if; cbn [run]; intros E; apply (Hfin _ _ _ _ _ _ _ E); discriminate.
Qed.

(** C10: a call of [bracket] that its preconditions accept evaluates the
    objective at most [maxiter + 3] times. *)
Theorem bracket_evaluations_bound
    (x0 x1 : option T) (a b gfactor rtol atol : T) (maxiter : Z) :
  (0 < maxiter)%Z ->
  (Z.of_nat (length (evals f (bracket x0 x1 a b gfactor rtol atol maxiter)))
   <= maxiter + 3)%Z.
Proof.
  intros Hm. unfold bracket.
  destruct (gfactor >? of_int 1); cbn [bind assert evals length]; [|lia].
  destruct (maxiter >? 0)%Z; cbn [bind assert evals length]; [|lia].
  destruct (_initialize_interval x0 x1 a b gfactor rtol atol) as [p q].
  cbn [evals length].
  destruct (if f p <? f q then (q, p, f q, f p) else (p, q, f p, f q))
    as [[[u0 u1] v0] v1].
  case_if; [cbn [evals length]; lia|].
  case_if; [cbn [_resolve_equal_fvalue evals length]; lia|].
  repeat (rewrite evals_bind; unfold assert at 1 2; case_if;
          cbn [run evals length app]; [|lia]).
  case_if; cbn [evals length]; [lia|].
  case_if; [cbn [_resolve_equal_fvalue evals length]; lia|].
  rewrite evals_bind, length_app.
  pose proof (evals_expansion a b gfactor maxiter (Z.to_nat maxiter) 0 u0 u1
              (_ensure_boundary (u1 + (u1 - u0) * gfactor) a b) v0 v1
              (f (_ensure_boundary (u1 + (u1 - u0) * gfactor) a b))) as Hloop.
  destruct (run_expansion a b gfactor maxiter (Z.to_nat maxiter) 0 u0 u1
              (_ensure_boundary (u1 + (u1 - u0) * gfactor) a b) v0 v1
              (f (_ensure_boundary (u1 + (u1 - u0) * gfactor) a b)))
    as [[nit [[[[[w0 w1] w2] h0] h1] h2]] ->].
  repeat case_if; cbn [evals length]; lia.
Qed.

(** C7: when the two initial points, put in the order in which
    [f(x0) >= f(x1)], are closer than [2 * (|x0| * rtol + atol)], [bracket]
    returns exit code 3 with the triple [(x0, x1, x1)] (sorted), in which
    [x1] stands twice. *)
Theorem bracket_too_close
    (x0 x1 : option T) (a b gfactor rtol atol : T) (maxiter : Z) (p q u0 u1 : T) :
  (gfactor >? of_int 1) = true ->
  (0 < maxiter)%Z ->
  _initialize_interval x0 x1 a b gfactor rtol atol = (p, q) ->
  (u0, u1) = (if f p <? f q then (q, p) else (p, q)) ->
  (n_abs (u0 - u1) <? of_int 2 * (n_abs u0 * rtol + atol)) = true ->
  run f (bracket x0 x1 a b gfactor rtol atol maxiter)
    = Returned (_sort u0 u1 u1 (f u0) (f u1) (f u1), 3%Z) /\
  (_sort u0 u1 u1 (f u0) (f u1) (f u1) = (u0, u1, u1, f u0, f u1, f u1) \/
   _sort u0 u1 u1 (f u0) (f u1) (f u1) = (u1, u1, u0, f u1, f u1, f u0)).
Proof.
  intros Hg Hm Hinit Hord Hclose. split.
  - unfold bracket. rewrite Hg, Hinit.
    apply Z.gtb_lt in Hm. rewrite Hm. cbn [bind assert run].
    destruct (f p <? f q); injection Hord as -> ->;
      unfold _tol; rewrite Hclose; reflexivity.
  - destruct (_sort_cases u0 u1 u1 (f u0) (f u1) (f u1)) as [[E _]|[E _]]; auto.
Qed.

(** When the two initial points, put in the same order, are not too close
    and have equal values, [bracket] is [_resolve_equal_fvalue] on them:
    it evaluates [f] a third time, at the midpoint. *)
Lemma bracket_equal_fvalue
    (x0 x1 : option T) (a b gfactor rtol atol : T) (maxiter : Z) (p q u0 u1 : T) :
  (gfactor >? of_int 1) = true ->
  (0 < maxiter)%Z ->
  _initialize_interval x0 x1 a b gfactor rtol atol = (p, q) ->
  (u0, u1) = (if f p <? f q then (q, p) else (p, q)) ->
  (n_abs (u0 - u1) <? of_int 2 * _tol u0 rtol atol) = false ->
  (f u0 =? f u1) = true ->
  let xm := u0 / of_int 2 + u1 / of_int 2 in
  run f (bracket x0 x1 a b gfactor rtol atol maxiter)
    = Returned (_sort u0 xm u1 (f u0) (f xm) (f u1),
                if bracketing (f u0) (f xm) (f u1) then 1%Z else 5%Z) /\
  evals f (bracket x0 x1 a b gfactor rtol atol maxiter) = [p; q; xm].
Proof.
  intros Hg Hm Hinit Hord Hfar Heq xm.
  destruct (run_resolve_equal_fvalue u0 u1 (f u0) (f u1)) as [Hrun Hev].
  fold xm in Hrun, Hev.
  unfold bracket. rewrite Hg, Hinit.
  apply Z.gtb_lt in Hm. rewrite Hm. cbn [bind assert run evals].
  destruct (f p <? f q); injection Hord as -> ->;
    rewrite Hfar, Heq, Hrun, Hev; auto.
Qed.

(** The second place where [bracket] tests for equal values: the pair made
    of the second point and of the third one, [x2], once the assertions and
    the test for a point on a bound are passed.  Equal values there lead to
    [_resolve_equal_fvalue] on [(x1, x2)]: a fourth evaluation, at their
    midpoint. *)
Lemma bracket_equal_fvalue_third
    (x0 x1 : option T) (a b gfactor rtol atol : T) (maxiter : Z) (p q u0 u1 : T) :
  (gfactor >? of_int 1) = true ->
  (0 < maxiter)%Z ->
  _initialize_interval x0 x1 a b gfactor rtol atol = (p, q) ->
  (u0, u1) = (if f p <? f q then (q, p) else (p, q)) ->
  (n_abs (u0 - u1) <? of_int 2 * _tol u0 rtol atol) = false ->
  (f u0 =? f u1) = false ->
  (a <=? u0) && (u0 <=? b) = true ->
  (a <=? u1) && (u1 <=? b) = true ->
  (u0 =? u1) = false ->
  _boundary_equal u1 a b = false ->
  let x2 := _ensure_boundary (u1 + (u1 - u0) * gfactor) a b in
  (f u1 =? f x2) = true ->
  let xm := u1 / of_int 2 + x2 / of_int 2 in
  run f (bracket x0 x1 a b gfactor rtol atol maxiter)
    = Returned (_sort u1 xm x2 (f u1) (f xm) (f x2),
                if bracketing (f u1) (f xm) (f x2) then 1%Z else 5%Z) /\
  evals f (bracket x0 x1 a b gfactor rtol atol maxiter) = [p; q; x2; xm].
Proof.
  intros Hg Hm Hinit Hord Hfar Hne H0 H1 H01 Hnb x2 Heq xm.
  destruct (run_resolve_equal_fvalue u1 x2 (f u1) (f x2)) as [Hrun Hev].
  fold xm in Hrun, Hev.
  unfold bracket. rewrite Hg, Hinit.
  apply Z.gtb_lt in Hm. rewrite Hm. cbn [bind assert run evals].
  destruct (f p <? f q); injection Hord as -> ->;
    rewrite Hfar, Hne, H0, H1, H01; cbn [negb bind assert];
    rewrite Hnb; cbn [run evals]; fold x2;
    rewrite Heq, Hrun, Hev; auto.
Qed.

End BracketFacts.

(** ** The evaluation counter of [minimize] *)

Section MinimizeFacts.

Context {T : Type} `{Number T}.
Variable R : Type.
Variable brent : T -> T -> T -> T -> T -> T -> T -> T -> Z -> prog T (T * T * R).
Variable W : Type.
Variable g : T -> W -> T * W.

(** Along any program, [func.nfev] and the caller's counter grow by the same
    amount, and never decrease. *)
Lemma exec_func_counted (A : Type) (p : prog T A) :
  forall (nfev : Z) (c : nat) (w : W) o nfev' c' w',
    exec (func (counted g)) p (nfev, (c, w)) = (o, (nfev', (c', w'))) ->
    (nfev' - nfev = Z.of_nat c' - Z.of_nat c)%Z /\ (nfev <= nfev')%Z.
Proof.
  induction p as [r|x k IH|]; cbn [exec]; intros nfev c w o nfev' c' w'.
  - intros [= _ <- <- _]. lia.
  - unfold func, counted. destruct (g x w) as [y w1]. intros E.
    apply IH in E. lia.
  - intros [= _ <- <- _]. lia.
Qed.

(** With a pure objective, [func.nfev] grows by the number of evaluations
    that [evals] lists, and the outcome is that of [run]. *)
Lemma exec_func_pure (f : T -> T) (A : Type) (p : prog T A) :
  forall (nfev : Z) (c : nat) (w : W),
    exec (func (counted (fun x (w : W) => (f x, w)))) p (nfev, (c, w))
    = (run f p,
       ((nfev + Z.of_nat (length (evals f p)))%Z,
        ((c + length (evals f p))%nat, w))).
Proof.
  induction p as [r|x k IH|]; intros nfev c w; cbn [exec run evals length].
  - now rewrite Z.add_0_r, Nat.add_0_r.
  - unfold func at 1, counted at 1. rewrite IH.
    f_equal. f_equal; [lia|]. f_equal. lia.
  - now rewrite Z.add_0_r, Nat.add_0_r.
Qed.

(** A call of [bracket] that returns has evaluated the objective at least
    twice. *)
Lemma exec_bracket_two_evaluations
    (x0 x1 : option T) (a b gfactor rtol atol : T) (maxiter : Z) :
  forall (nfev : Z) (c : nat) (w : W) r nfev' c' w',
    exec (func (counted g)) (bracket x0 x1 a b gfactor rtol atol maxiter)
      (nfev, (c, w)) = (Returned r, (nfev', (c', w'))) ->
    (nfev + 2 <= nfev')%Z.
Proof.
  intros nfev c w r nfev' c' w'. unfold bracket.
  destruct (n_lt (of_int 1) gfactor); cbn [bind assert exec]; [|discriminate].
  destruct (maxiter >? 0)%Z; cbn [bind assert exec]; [|discriminate].
  destruct (_initialize_interval x0 x1 a b gfactor rtol atol) as [p q].
  cbn [exec]. unfold func at 1, counted at 1.
  destruct (g p w) as [y1 w1]. unfold func at 1, counted at 1.
  destruct (g q w1) as [y2 w2]. intros E.
  apply exec_func_counted in E. lia.
Qed.

(** C2: when a call of [minimize] returns, the [n_evaluations] it returns is
    strictly positive and is the number of times the objective was invoked,
    as a counter of the caller's own, started at 0, measures it. *)
Theorem minimize_counts_evaluations
    (x0 x1 : option T) (a b gfactor rtol atol : T) (maxiter : Z)
    (w : W) (x_min f_min : T) (n_evaluations : Z) (c : nat) (w' : W) :
  minimize brent (counted g) x0 x1 a b gfactor rtol atol maxiter (0%nat, w)
    = (Returned (x_min, f_min, n_evaluations), (c, w')) ->
  n_evaluations = Z.of_nat c /\ (0 < n_evaluations)%Z.
Proof.
  unfold minimize.
  destruct (exec _ _ _) as [[[xm fm]|] [nfev [c1 w1]]] eqn:E; [|discriminate].
  intros [= -> -> -> -> ->].
  pose proof (exec_func_counted _ _ _ _ E) as [Hsame _].
  unfold minimize_calls in E. rewrite exec_bind in E.
  destruct (exec _ (bracket _ _ _ _ _ _ _ _) _) as [[r|] [n1 [c2 w2]]] eqn:Eb;
    [|discriminate].
  apply exec_bracket_two_evaluations in Eb.
  destruct r as [[[[[[y0 y1] y2] g0] g1] g2] e].
  apply exec_func_counted in E. simpl in Hsame. lia.
Qed.

End MinimizeFacts.

(** ** The order laws of the two number types *)

(** *** binary64: from the specification of the comparisons *)

Lemma SFcompare_antisym (x y : spec_float) :
  SFcompare y x = option_map CompOpp (SFcompare x y).
Proof.
  destruct x as [s1|s1| |s1 m1 e1], y as [s2|s2| |s2 m2 e2]; simpl; auto;
    try (destruct s1; reflexivity); try (destruct s2; reflexivity);
    try (destruct s1, s2; reflexivity).
  destruct s1, s2; simpl; auto; rewrite (Z.compare_antisym e1 e2);
    destruct (e1 ?= e2)%Z; simpl; auto;
    change (Pos.compare_cont Eq m2 m1) with (m2 ?= m1)%positive;
    change (Pos.compare_cont Eq m1 m2) with (m1 ?= m2)%positive;
    rewrite (Pos.compare_antisym m1 m2); auto.
Qed.

Lemma SFleb_trans (x y z : spec_float) :
  SFleb x y = true -> SFleb y z = true -> SFleb x z = true.
Proof.
  unfold SFleb.
  destruct x as [s1|s1| |s1 m1 e1], y as [s2|s2| |s2 m2 e2],
           z as [s3|s3| |s3 m3 e3]; simpl; try discriminate; auto;
    try (destruct s1; simpl; auto; discriminate);
    try (destruct s2; simpl; auto; discriminate);
    try (destruct s3; simpl; auto; discriminate);
    try (destruct s1, s2; simpl; auto; discriminate);
    try (destruct s1, s3; simpl; auto; discriminate);
    try (destruct s2, s3; simpl; auto; discriminate);
    try (destruct s1, s2, s3; simpl; auto; discriminate).
  change (Pos.compare_cont Eq m1 m2) with (m1 ?= m2)%positive.
  change (Pos.compare_cont Eq m2 m3) with (m2 ?= m3)%positive.
  change (Pos.compare_cont Eq m1 m3) with (m1 ?= m3)%positive.
  destruct s1, s2, s3; simpl; auto; try discriminate;
    destruct (Z.compare_spec e1 e2), (Z.compare_spec e2 e3),
             (Z.compare_spec e1 e3); simpl; auto; try discriminate; try lia;
    destruct (Pos.compare_spec m1 m2), (Pos.compare_spec m2 m3),
             (Pos.compare_spec m1 m3); simpl; auto; try discriminate; lia.
Qed.

Lemma SFcompare_opp (x y : spec_float) :
  SFcompare (SFopp y) (SFopp x) = SFcompare x y.
Proof.
  destruct x as [s1|s1| |s1 m1 e1], y as [s2|s2| |s2 m2 e2]; simpl; auto;
    try (destruct s1; reflexivity); try (destruct s2; reflexivity);
    try (destruct s1, s2; reflexivity).
  change (Pos.compare_cont Eq m2 m1) with (m2 ?= m1)%positive.
  change (Pos.compare_cont Eq m1 m2) with (m1 ?= m2)%positive.
  destruct s1, s2; simpl; auto; rewrite (Z.compare_antisym e1 e2);
    destruct (e1 ?= e2)%Z; simpl; auto;
    rewrite (Pos.compare_antisym m1 m2); auto.
  now rewrite CompOpp_involutive.
Qed.

Lemma downhill_strictly_decreasing (a b : float) :
  strictly_decreasing a b downhill.
Proof.
  intros x y _ Hxy _. cbn [n_lt Number_float] in *. unfold downhill.
  rewrite ltb_spec in *. rewrite !opp_spec. unfold SFltb in *.
  now rewrite SFcompare_opp.
Qed.

#[export] Instance OrderLaws_float : OrderLaws float.
Proof.
  split; cbn [n_lt n_le n_eq Number_float].
  - intros x y. rewrite !ltb_spec. unfold SFltb.
    rewrite (SFcompare_antisym (Prim2SF x) (Prim2SF y)).
    destruct (SFcompare _ _) as [[]|]; simpl; auto; discriminate.
  - intros x y. rewrite !ltb_spec, !FloatAxioms.eqb_spec. unfold SFltb, SFeqb.
    rewrite (SFcompare_antisym (Prim2SF x) (Prim2SF y)).
    destruct (SFcompare _ _) as [[]|]; simpl; auto; discriminate.
  - intros x y. rewrite ltb_spec, leb_spec. unfold SFltb, SFleb.
    rewrite (SFcompare_antisym (Prim2SF x) (Prim2SF y)).
    destruct (SFcompare _ _) as [[]|]; simpl; auto; discriminate.
  - intros x y z. rewrite !leb_spec. apply SFleb_trans.
Qed.

(** *** Exact rationals *)

Lemma Qlt_bool_iff (x y : Q) : Qlt_bool x y = true <-> (x < y)%Q.
Proof.
  unfold Qlt_bool. rewrite negb_true_iff, <- not_true_iff_false, Qle_bool_iff.
  split; [apply Qnot_le_lt | apply Qlt_not_le].
Qed.

Lemma Qlt_bool_false_iff (x y : Q) : Qlt_bool x y = false <-> (y <= x)%Q.
Proof.
  unfold Qlt_bool. rewrite negb_false_iff. apply Qle_bool_iff.
Qed.

Lemma Qle_bool_false_iff (x y : Q) : Qle_bool x y = false <-> (y < x)%Q.
Proof.
  rewrite <- not_true_iff_false, Qle_bool_iff.
  split; [apply Qnot_le_lt | apply Qlt_not_le].
Qed.

Lemma Qeq_bool_false_iff (x y : Q) : Qeq_bool x y = false <-> ~ (x == y)%Q.
Proof. now rewrite <- not_true_iff_false, Qeq_bool_iff. Qed.

#[export] Instance OrderLaws_Q : OrderLaws Q.
Proof.
  split; cbn [n_lt n_le n_eq Number_Q].
  - intros x y. rewrite Qlt_bool_iff, Qlt_bool_false_iff. lra.
  - intros x y. rewrite Qlt_bool_iff, !Qeq_bool_false_iff. lra.
  - intros x y. rewrite Qle_bool_iff, Qlt_bool_false_iff. lra.
  - intros x y z. rewrite !Qle_bool_iff. lra.
Qed.

(** ** The preconditions of [bracket] *)

Section Preconditions.

Context {T : Type} `{OrderLaws T}.
Local Open Scope num_scope.
Local Open Scope prog_scope.

(** C3, as the code has it: [gfactor <= 1] and [maxiter <= 0] are refused by
    an assertion before the objective is evaluated at all.  Bounds with
    [a > b] are not checked when the call starts: the objective is evaluated
    at the two initial points first, and then the call either fails at the
    later assertion [a <= x0 <= b] or returns through one of the two
    degenerate cases that come before it (exit code 3, or the bisection's
    1 or 5). *)
Theorem bracket_precondition_violations
    (x0 x1 : option T) (a b gfactor rtol atol : T) (maxiter : Z) :
  ((gfactor <=? of_int 1) = true \/ (maxiter <= 0)%Z ->
   bracket x0 x1 a b gfactor rtol atol maxiter = AssertionError) /\
  ((a >? b) = true -> (gfactor >? of_int 1) = true -> (0 < maxiter)%Z ->
   forall f : T -> T,
     (2 <= length (evals f (bracket x0 x1 a b gfactor rtol atol maxiter)))%nat /\
     (run f (bracket x0 x1 a b gfactor rtol atol maxiter) = Raised \/
      exists t e,
        run f (bracket x0 x1 a b gfactor rtol atol maxiter) = Returned (t, e) /\
        (e = 3 \/ e = 1 \/ e = 5)%Z)).
Proof.
  split.
  - intros [Hg|Hm]; unfold bracket.
    + apply le_not_lt in Hg. rewrite Hg. reflexivity.
    + destruct (gfactor >? of_int 1); cbn [bind assert]; auto.
      destruct (Z.gtb_spec maxiter 0); [lia|reflexivity].
  - intros Hab Hg Hm f. unfold bracket. rewrite Hg.
    apply Z.gtb_lt in Hm. rewrite Hm. cbn [bind assert].
    destruct (_initialize_interval x0 x1 a b gfactor rtol atol) as [p q].
    cbn [run evals length].
    destruct (if f p <? f q then (q, p, f q, f p) else (p, q, f p, f q))
      as [[[u0 u1] v0] v1].
    split; [lia|].
    case_if; [right; cbn [run]; eauto 6|].
    case_if.
    { right. cbn [_resolve_equal_fvalue run].
      destruct (bracketing v0 _ v1); cbn [negb]; eauto 6. }
    left. rewrite run_bind. unfold assert at 1.
    destruct (a <=? u0) eqn:E1; [|reflexivity].
    destruct (u0 <=? b) eqn:E2; [|reflexivity].
    pose proof (le_not_lt _ _ (le_trans _ _ _ E1 E2)) as Hba. congruence.
Qed.

End Preconditions.

(** ** A decreasing objective *)

Section DecreasingFacts.

Context {T : Type} `{OrderLaws T}.
Local Open Scope num_scope.
Local Open Scope prog_scope.

Variables (a b gfactor : T) (maxiter : Z).
Variable f : T -> T.
Hypothesis f_decreasing : strictly_decreasing a b f.

Lemma decreasing_no_bracket (x0 x1 x2 : T) :
  (a <=? x1) && (x1 <? x2) && (x2 <=? b) = true ->
  bracketing (f x0) (f x1) (f x2) = false /\ (f x1 =? f x2) = false.
Proof.
  intros E. apply andb_prop in E as [E E3]. apply andb_prop in E as [E1 E2].
  pose proof (f_decreasing _ _ E1 E2 E3) as Hlt. split.
  - unfold bracketing. rewrite (lt_asym _ _ Hlt). apply andb_false_r.
  - apply (lt_not_eq _ _ Hlt).
Qed.

(** Under a decreasing objective the loop follows [slide]. *)
Lemma run_expansion_decreasing (fuel : nat) :
  forall nit x0 x1 x2,
    ascending a b gfactor maxiter fuel nit x1 x2 = true ->
    let '(n, (y0, y1, y2)) := slide a b gfactor maxiter fuel nit x0 x1 x2 in
    run f (expansion a b gfactor maxiter fuel nit x0 x1 x2 (f x0) (f x1) (f x2))
      = Returned (n, (y0, y1, y2, f y0, f y1, f y2)) /\
    bracketing (f y0) (f y1) (f y2) = false.
Proof.
  induction fuel as [|fuel IH]; intros nit x0 x1 x2 Hasc; cbn [ascending] in Hasc;
    apply andb_prop in Hasc as [Hup Hrest];
    destruct (decreasing_no_bracket x0 _ _ Hup) as [Hnb _];
    cbn [slide expansion]; unfold continue; rewrite Hnb; cbn [negb andb];
    destruct ((nit <? maxiter)%Z && _boundary_inside x2 a b); cbn [run]; auto.
  apply (IH _ x1 _ _ Hrest).
Qed.

(** [bracket] under a decreasing objective, when the initial points [p < q]
    are within the bounds, apart enough, and [q] is not on a bound. *)
Lemma run_bracket_decreasing (x0 x1 : option T) (rtol atol : T) (p q : T) :
  (gfactor >? of_int 1) = true ->
  (0 < maxiter)%Z ->
  _initialize_interval x0 x1 a b gfactor rtol atol = (p, q) ->
  (a <=? p) && (p <? q) && (q <=? b) = true ->
  (p <=? b) = true ->
  (a <=? q) = true ->
  (n_abs (p - q) <? of_int 2 * _tol p rtol atol) = false ->
  _boundary_equal q a b = false ->
  let x2 := _ensure_boundary (q + (q - p) * gfactor) a b in
  ascending a b gfactor maxiter (Z.to_nat maxiter) 0 q x2 = true ->
  let '(n, (y0, y1, y2)) := slide a b gfactor maxiter (Z.to_nat maxiter) 0 p q x2 in
  run f (bracket x0 x1 a b gfactor rtol atol maxiter)
    = Returned (_sort y0 y1 y2 (f y0) (f y1) (f y2),
                if (n =? maxiter)%Z then 4%Z else 2%Z).
Proof.
  intros Hg Hm Hinit Hpq Hpb Haq Hfar Hnb x2 Hasc.
  pose proof (run_expansion_decreasing (Z.to_nat maxiter) 0 p q x2 Hasc) as Hloop.
  destruct (slide a b gfactor maxiter (Z.to_nat maxiter) 0 p q x2)
    as [n [[y0 y1] y2]].
  destruct Hloop as [Hloop Hout].
  destruct (decreasing_no_bracket p _ _ Hpq) as [_ Hne].
  pose proof Hpq as Hpq'.
  apply andb_prop in Hpq' as [Hpq' E3]. apply andb_prop in Hpq' as [E1 E2].
  pose proof (f_decreasing _ _ E1 E2 E3) as Hlt.
  assert (Hq2 : (f q =? f x2) = false).
  { assert (Hup : (a <=? q) && (q <? x2) && (x2 <=? b) = true).
    { destruct (Z.to_nat maxiter); cbn [ascending] in Hasc;
        now apply andb_prop in Hasc as [Hup _]. }
    apply (decreasing_no_bracket p _ _ Hup). }
  unfold bracket. rewrite Hg, Hinit. apply Z.gtb_lt in Hm. rewrite Hm.
  cbn [bind assert run]. rewrite (lt_asym _ _ Hlt), Hfar, Hne.
  rewrite E1, Hpb, Haq, E3. cbn [andb negb bind assert].
  destruct (lt_not_eq _ _ E2) as [-> _]. cbn [negb bind assert].
  rewrite Hnb. cbn [run]. fold x2. rewrite Hq2, run_bind, Hloop, Hout.
  destruct (n =? maxiter)%Z; reflexivity.
Qed.

End DecreasingFacts.

(** ** binary64 runs *)

Section Binary64.

Local Open Scope float_scope.

(** C6, as the code has it: for every objective that decreases strictly over
    [[0, 1]], [bracket(f, a=0, b=1)] returns exit code 2 with [x2 == b]. *)
Theorem bracket_decreasing_hits_boundary (f : float -> float) :
  strictly_decreasing 0 1 f ->
  exists y0 y1 : float,
    (0 <? y0) = true /\ (y0 <? y1) = true /\ (y1 <? 1) = true /\
    run f (bracket None None 0 1 2 _eps _eps 500)
      = Returned ((y0, y1, 1, f y0, f y1, f 1), 2%Z).
Proof.
  intros Hdec.
  assert (Hinit : _initialize_interval None None 0 1 2 _eps _eps
                  = (0, 20 * _eps)).
  { vm_compute. reflexivity. }
  pose proof (@run_bracket_decreasing float _ _ 0 1 2 500 f Hdec None None
                _eps _eps _ _ eq_refl eq_refl Hinit
                eq_refl eq_refl eq_refl eq_refl eq_refl) as R.
  cbv zeta in R.
  set (s := slide _ _ _ _ _ _ _ _ _) in R. vm_compute in s. subst s.
  set (s := ascending _ _ _ _ _ _ _ _) in R. vm_compute in s. subst s.
  specialize (R eq_refl). cbv beta iota in R.
  match type of R with
  | _ = Returned (_sort ?y0 ?y1 _ _ _ _, _) => exists y0, y1
  end.
  do 3 (split; [vm_compute; reflexivity|]).
  rewrite R. reflexivity.
Qed.

Lemma bracket_decreasing_hits_boundary_witness :
  exists y0 y1 : float,
    (0 <? y0) = true /\ (y0 <? y1) = true /\ (y1 <? 1) = true /\
    run downhill (bracket None None 0 1 2 _eps _eps 500)
      = Returned ((y0, y1, 1, downhill y0, downhill y1, downhill 1), 2%Z).
Proof.
  apply (@bracket_decreasing_hits_boundary downhill).
  apply downhill_strictly_decreasing.
Defined.

(** C6 as stated fails: the constant objective decreases monotonically over
    [[0, 1]], and [bracket(f, a=0, b=1)] returns exit code 5 for it. *)
Lemma bracket_monotone_not_boundary :
  monotonically_decreasing 0 1 (flat (T:=float)) /\
  run flat (bracket None None 0 1 2 _eps _eps 500)
    = Returned ((0, 10 * _eps, 20 * _eps, 0, 0, 0), 5%Z).
Proof.
  split; [intros x y _ _ _; reflexivity | vm_compute; reflexivity].
Qed.

(** C3 as stated fails: with the bounds [a = 1 > b = 0] this call returns,
    and with exit code 1. *)
Lemma bracket_accepts_reversed_bounds :
  ((1 : float) >? 0)%num = true /\
  run (parabola 0.75) (bracket (Some 0) (Some 1.5) 1 0 2 _eps _eps 500)
    = Returned ((0, 0.75, 1.5, 0.5625, 0, 0.5625), 1%Z).
Proof. split; vm_compute; reflexivity. Qed.

Lemma bracket_precondition_violations_witness :
  bracket (Some 0) (Some 1) 0 1 1 _eps _eps 500 = AssertionError /\
  le 2 (length (evals (parabola 0.75)
                  (bracket (Some 0) (Some 1.5) 1 0 2 _eps _eps 500))).
Proof.
  split.
  - destruct (@bracket_precondition_violations float _ _
                (Some 0) (Some 1) 0 1 1 _eps _eps 500) as [Hfast _].
    apply Hfast. left. reflexivity.
  - destruct (@bracket_precondition_violations float _ _
                (Some 0) (Some 1.5) 1 0 2 _eps _eps 500) as [_ Hrev].
    apply (Hrev eq_refl eq_refl eq_refl (parabola 0.75)).
Defined.

(** C5, as the code has it: [bracket] tests two pairs of points for equal
    values, and bisects the pair it finds equal.  The first is the pair of
    initial points (in the order in which [f(x0) >= f(x1)]), once it has
    passed the too-close test; the second is the pair [(x1, x2)] made with
    the third point, once the assertions on the bounds and the test for a
    point on a bound are passed.  In both cases [f] is evaluated once more,
    at the midpoint [x/2 + x'/2] of the pair, and the exit code is 1 when
    the sorted triple is a bracket and 5 when it is not.
    [bracket(lambda x: 0.0, x0=0, x1=1)] returns exit code 5. *)
Theorem bracket_equal_values_bisects :
  (forall (T : Type) (N : Number T) (f : T -> T)
          (x0 x1 : option T) (a b gfactor rtol atol : T) (maxiter : Z)
          (p q u0 u1 : T),
      (gfactor >? of_int 1)%num = true ->
      (0 < maxiter)%Z ->
      _initialize_interval x0 x1 a b gfactor rtol atol = (p, q) ->
      (u0, u1) = (if (f p <? f q)%num then (q, p) else (p, q)) ->
      (n_abs (u0 - u1) <? of_int 2 * _tol u0 rtol atol)%num = false ->
      (f u0 =? f u1)%num = true ->
      exists y0 y1 y2 g0 g1 g2 e,
        run f (bracket x0 x1 a b gfactor rtol atol maxiter)
          = Returned ((y0, y1, y2, g0, g1, g2), e) /\
        (y0, y1, y2, g0, g1, g2)
          = _sort u0 (u0 / of_int 2 + u1 / of_int 2)%num u1
                  (f u0) (f (u0 / of_int 2 + u1 / of_int 2)%num) (f u1) /\
        evals f (bracket x0 x1 a b gfactor rtol atol maxiter)
          = [p; q; (u0 / of_int 2 + u1 / of_int 2)%num] /\
        e = (if bracketing g0 g1 g2 then 1%Z else 5%Z)) /\
  (forall (T : Type) (N : Number T) (f : T -> T)
          (x0 x1 : option T) (a b gfactor rtol atol : T) (maxiter : Z)
          (p q u0 u1 x2 : T),
      (gfactor >? of_int 1)%num = true ->
      (0 < maxiter)%Z ->
      _initialize_interval x0 x1 a b gfactor rtol atol = (p, q) ->
      (u0, u1) = (if (f p <? f q)%num then (q, p) else (p, q)) ->
      (n_abs (u0 - u1) <? of_int 2 * _tol u0 rtol atol)%num = false ->
      (f u0 =? f u1)%num = false ->
      ((a <=? u0) && (u0 <=? b))%num = true ->
      ((a <=? u1) && (u1 <=? b))%num = true ->
      (u0 =? u1)%num = false ->
      _boundary_equal u1 a b = false ->
      x2 = _ensure_boundary (u1 + (u1 - u0) * gfactor)%num a b ->
      (f u1 =? f x2)%num = true ->
      exists y0 y1 y2 g0 g1 g2 e,
        run f (bracket x0 x1 a b gfactor rtol atol maxiter)
          = Returned ((y0, y1, y2, g0, g1, g2), e) /\
        (y0, y1, y2, g0, g1, g2)
          = _sort u1 (u1 / of_int 2 + x2 / of_int 2)%num x2
                  (f u1) (f (u1 / of_int 2 + x2 / of_int 2)%num) (f x2) /\
        evals f (bracket x0 x1 a b gfactor rtol atol maxiter)
          = [p; q; x2; (u1 / of_int 2 + x2 / of_int 2)%num] /\
        e = (if bracketing g0 g1 g2 then 1%Z else 5%Z)) /\
  run flat (bracket (Some 0) (Some 1) (- inf) inf 2 _eps _eps 500)
    = Returned ((0, 0.5, 1, 0, 0, 0), 5%Z).
Proof.
  split; [|split; [|vm_compute; reflexivity]].
  - intros T N f x0 x1 a b gfactor rtol atol maxiter p q u0 u1
           Hg Hm Hinit Hord Hfar Heq.
    destruct (@bracket_equal_fvalue T N f x0 x1 a b gfactor rtol atol maxiter
                p q u0 u1 Hg Hm Hinit Hord Hfar Heq)
      as [Hrun Hev].
    destruct (_sort u0 _ u1 (f u0) _ (f u1))
      as [[[[[y0 y1] y2] g0] g1] g2] eqn:Es.
    exists y0, y1, y2, g0, g1, g2. eexists. repeat split; eauto.
    now rewrite (_sort_bracketing _ _ _ _ _ _ Es).
  - intros T N f x0 x1 a b gfactor rtol atol maxiter p q u0 u1 x2
           Hg Hm Hinit Hord Hfar Hne H0 H1 H01 Hnb Hx2 Heq. subst x2.
    destruct (@bracket_equal_fvalue_third T N f x0 x1 a b gfactor rtol atol
                maxiter p q u0 u1 Hg Hm Hinit Hord Hfar Hne H0 H1 H01 Hnb Heq)
      as [Hrun Hev].
    destruct (_sort u1 _ _ (f u1) _ _)
      as [[[[[y0 y1] y2] g0] g1] g2] eqn:Es.
    exists y0, y1, y2, g0, g1, g2. eexists. repeat split; eauto.
    now rewrite (_sort_bracketing _ _ _ _ _ _ Es).
Qed.

Lemma bracket_equal_values_bisects_witness :
  (exists y0 y1 y2 g0 g1 g2 e,
     run (parabola 0.5)
         (bracket (Some 0) (Some 1) (- inf) inf 2 _eps _eps 500)
       = Returned ((y0, y1, y2, g0, g1, g2), e) /\
     (y0, y1, y2, g0, g1, g2) = (0, 0.5, 1, 0.25, 0, 0.25) /\
     evals (parabola 0.5)
           (bracket (Some 0) (Some 1) (- inf) inf 2 _eps _eps 500)
       = [0; 1; 0.5] /\
     e = 1%Z) /\
  (exists y0 y1 y2 g0 g1 g2 e,
     run (parabola 0.75) (bracket (Some 0) (Some 0.5) 0 1 2 _eps _eps 500)
       = Returned ((y0, y1, y2, g0, g1, g2), e) /\
     (y0, y1, y2, g0, g1, g2) = (0.5, 0.75, 1, 0.0625, 0, 0.0625) /\
     evals (parabola 0.75) (bracket (Some 0) (Some 0.5) 0 1 2 _eps _eps 500)
       = [0; 0.5; 1; 0.75] /\
     e = 1%Z).
Proof.
  destruct bracket_equal_values_bisects as (Hfirst & Hthird & _). split.
  - destruct (Hfirst float _ (parabola 0.5)
                (Some 0) (Some 1) (- inf) inf 2 _eps _eps 500%Z 0 1 0 1)
      as (y0 & y1 & y2 & g0 & g1 & g2 & e & Hrun & Hs & Hev & He);
      try (vm_compute; reflexivity).
    assert (Hs' : (y0, y1, y2, g0, g1, g2) = (0, 0.5, 1, 0.25, 0, 0.25)).
    { rewrite Hs. vm_compute. reflexivity. }
    exists y0, y1, y2, g0, g1, g2, e.
    split; [exact Hrun|]. split; [exact Hs'|]. split; [exact Hev|].
    rewrite He. injection Hs' as -> -> -> -> -> ->. vm_compute. reflexivity.
  - destruct (Hthird float _ (parabola 0.75)
                (Some 0) (Some 0.5) 0 1 2 _eps _eps 500%Z 0 0.5 0 0.5 1)
      as (y0 & y1 & y2 & g0 & g1 & g2 & e & Hrun & Hs & Hev & He);
      try (vm_compute; reflexivity).
    assert (Hs' : (y0, y1, y2, g0, g1, g2)
                  = (0.5, 0.75, 1, 0.0625, 0, 0.0625)).
    { rewrite Hs. vm_compute. reflexivity. }
    exists y0, y1, y2, g0, g1, g2, e.
    split; [exact Hrun|]. split; [exact Hs'|]. split; [exact Hev|].
    rewrite He. injection Hs' as -> -> -> -> -> ->. vm_compute. reflexivity.
Defined.

(** C5 as stated fails: equal values do not always lead to a bisection.
    Points that are too close return exit code 3 before their values are
    compared; and values that come out equal inside the loop are not
    compared at all: here [f(3) = f(7) = f(15) = f(31) = -2] and the call
    ends with exit code 4, with no midpoint among its evaluations. *)
Lemma bracket_equal_values_not_bisected :
  (flat 0 =? flat 0x1p-30) = true /\
  run flat (bracket (Some 0) (Some 0x1p-30) (- inf) inf 2 _eps _eps 500)
    = Returned ((0, 0x1p-30, 0x1p-30, 0, 0, 0), 3%Z) /\
  evals flat (bracket (Some 0) (Some 0x1p-30) (- inf) inf 2 _eps _eps 500)
    = [0; 0x1p-30] /\
  (plateau 3 =? plateau 7) = true /\
  run plateau (bracket (Some 0) (Some 1) (- inf) inf 2 _eps _eps 3)
    = Returned ((7, 15, 31, -2, -2, -2), 4%Z) /\
  evals plateau (bracket (Some 0) (Some 1) (- inf) inf 2 _eps _eps 3)
    = [0; 1; 3; 7; 15; 31].
Proof. repeat split; vm_compute; reflexivity. Qed.

Lemma bracket_found_is_bracketing_witness :
  run (parabola 0.75) (bracket (Some 0) (Some 0.5) 0 1 2 _eps _eps 500)
    = Returned ((0.5, 0.75, 1, 0.0625, 0, 0.0625), 1%Z) /\
  (0 <? 0.0625) = true /\ (0 <? 0.0625) = true.
Proof.
  assert (Hrun : run (parabola 0.75)
                   (bracket (Some 0) (Some 0.5) 0 1 2 _eps _eps 500)
                 = Returned ((0.5, 0.75, 1, 0.0625, 0, 0.0625), 1%Z)).
  { vm_compute. reflexivity. }
  split; [exact Hrun|].
  exact (@bracket_found_is_bracketing float _ (parabola 0.75)
           (Some 0) (Some 0.5) 0 1 2 _eps _eps 500
           0.5 0.75 1 0.0625 0 0.0625 Hrun).
Defined.

Lemma bracket_evaluations_bound_witness :
  Z.le (Z.of_nat (length (evals (parabola 2%float)
                            (bracket None None (- inf)%float inf 2%float
                                     _eps _eps 500))))
       (500 + 3).
Proof.
  apply (@bracket_evaluations_bound float _ (parabola 2)
           None None (- inf) inf 2 _eps _eps 500).
  reflexivity.
Defined.

Lemma bracket_too_close_witness :
  run (parabola 2) (bracket (Some 1) (Some (1 + 0x1p-30)) 0 4 2 _eps _eps 500)
    = Returned (_sort 1 (1 + 0x1p-30) (1 + 0x1p-30) (parabola 2 1)
                  (parabola 2 (1 + 0x1p-30)) (parabola 2 (1 + 0x1p-30)), 3%Z) /\
  (_sort 1 (1 + 0x1p-30) (1 + 0x1p-30) (parabola 2 1)
         (parabola 2 (1 + 0x1p-30)) (parabola 2 (1 + 0x1p-30))
     = (1, 1 + 0x1p-30, 1 + 0x1p-30, parabola 2 1,
        parabola 2 (1 + 0x1p-30), parabola 2 (1 + 0x1p-30)) \/
   _sort 1 (1 + 0x1p-30) (1 + 0x1p-30) (parabola 2 1)
         (parabola 2 (1 + 0x1p-30)) (parabola 2 (1 + 0x1p-30))
     = (1 + 0x1p-30, 1 + 0x1p-30, 1, parabola 2 (1 + 0x1p-30),
        parabola 2 (1 + 0x1p-30), parabola 2 1)).
Proof.
  apply (@bracket_too_close float _ (parabola 2)
           (Some 1) (Some (1 + 0x1p-30)) 0 4 2 _eps _eps 500
           1 (1 + 0x1p-30) 1 (1 + 0x1p-30));
    vm_compute; reflexivity.
Defined.

Lemma minimize_counts_evaluations_witness :
  exists x_min f_min,
    minimize brent_once (counted (fun x (w : unit) => (parabola 2 x, w)))
             None None (- inf) inf 2 _eps _eps 500 (0%nat, tt)
      = (Returned (x_min, f_min, 26%Z), (26%nat, tt)) /\
    26%Z = Z.of_nat 26 /\ (0 < 26)%Z.
Proof.
  eexists. eexists. split; [vm_compute; reflexivity|].
  eapply (@minimize_counts_evaluations float _ unit brent_once unit
            (fun x (w : unit) => (parabola 2 x, w))
            None None (- inf) inf 2 _eps _eps 500 tt).
  vm_compute. reflexivity.
Defined.

End Binary64.

(** ** Exact rationals: where the points of [bracket] lie *)

Ltac q_props :=
  repeat match goal with
  | H : Qlt_bool _ _ = true |- _ => apply Qlt_bool_iff in H
  | H : Qlt_bool _ _ = false |- _ => apply Qlt_bool_false_iff in H
  | H : Qle_bool _ _ = true |- _ => apply Qle_bool_iff in H
  | H : Qle_bool _ _ = false |- _ => apply Qle_bool_false_iff in H
  | H : Qeq_bool _ _ = true |- _ => apply Qeq_bool_iff in H
  | H : Qeq_bool _ _ = false |- _ => apply Qeq_bool_false_iff in H
  end.

Ltac q_ops :=
  cbn [n_lt n_le n_eq n_add n_sub n_mul n_div n_abs of_int Number_Q] in *.

Section RationalFacts.

Local Open Scope Q_scope.

Lemma _ensure_boundary_within (x a b : Q) :
  a <= b -> a <= _ensure_boundary x a b /\ _ensure_boundary x a b <= b.
Proof.
  intros Hab. unfold _ensure_boundary, py_max, py_min. q_ops.
  destruct (Qlt_bool b x) eqn:E1;
    [destruct (Qlt_bool b a) eqn:E2 | destruct (Qlt_bool x a) eqn:E2];
    q_props; lra.
Qed.

(** Clamping keeps a candidate on the side of an inner point it is on. *)
Lemma _ensure_boundary_above (x y a b : Q) :
  y < x -> y < b -> y < _ensure_boundary x a b.
Proof.
  intros Hx Hb. unfold _ensure_boundary, py_max, py_min. q_ops.
  destruct (Qlt_bool b x) eqn:E1;
    [destruct (Qlt_bool b a) eqn:E2 | destruct (Qlt_bool x a) eqn:E2];
    q_props; lra.
Qed.

Lemma _ensure_boundary_below (x y a b : Q) :
  x < y -> a < y -> a <= b -> _ensure_boundary x a b < y.
Proof.
  intros Hx Ha Hab. unfold _ensure_boundary, py_max, py_min. q_ops.
  destruct (Qlt_bool b x) eqn:E1;
    [destruct (Qlt_bool b a) eqn:E2 | destruct (Qlt_bool x a) eqn:E2];
    q_props; lra.
Qed.

Lemma next_point_in_a_row (a b gfactor x0 x1 x2 : Q) :
  1 < gfactor -> in_a_row a b x0 x1 x2 -> a < x2 -> x2 < b ->
  in_a_row a b x1 x2 (next_point a b gfactor x1 x2).
Proof.
  intros Hg (H0a & H0b & H2a & H2b & Hdir) Ha Hb. unfold next_point. q_ops.
  assert (Hab : a <= b) by lra.
  destruct (_ensure_boundary_within (x2 + gfactor * (x2 - x1)) Hab) as [Hl Hu].
  unfold in_a_row. repeat split; try lra.
  destruct Hdir as [[H01 H12]|[H21 H10]]; [left|right]; split; try lra.
  - apply _ensure_boundary_above; [nra|lra].
  - apply _ensure_boundary_below; [nra|lra|lra].
Qed.

(** The loop keeps its three points in a row. *)
Lemma expansion_in_a_row (f : Q -> Q) (a b gfactor : Q) (maxiter : Z) :
  1 < gfactor ->
  forall fuel nit x0 x1 x2 f0 f1 f2 n y0 y1 y2 g0 g1 g2,
    in_a_row a b x0 x1 x2 ->
    run f (expansion a b gfactor maxiter fuel nit x0 x1 x2 f0 f1 f2)
      = Returned (n, (y0, y1, y2, g0, g1, g2)) ->
    in_a_row a b y0 y1 y2.
Proof.
  intros Hg. induction fuel as [|fuel IH];
    intros nit x0 x1 x2 f0 f1 f2 n y0 y1 y2 g0 g1 g2 Hrow; cbn [expansion].
  - destruct (continue _ _ _ _ _ _ _); cbn [run];
      intros [= _ <- <- <- _ _ _]; exact Hrow.
  - destruct (continue a b maxiter nit x2 f0 f1 f2) eqn:E; cbn [run].
    + unfold continue, _boundary_inside in E. q_ops.
      apply andb_prop in E as [_ E]. apply andb_prop in E as [E1 E2]. q_props.
      apply IH.
      apply (@next_point_in_a_row a b gfactor x0 x1 x2 Hg Hrow); assumption.
    + intros [= _ <- <- <- _ _ _]; exact Hrow.
Qed.

(** Points that pass the too-close test are distinct. *)
Lemma far_apart_distinct (x0 x1 rtol atol : Q) :
  0 <= rtol -> 0 < atol ->
  (n_abs (x0 - x1) <? of_int 2 * _tol x0 rtol atol)%num = false ->
  ~ x0 == x1.
Proof.
  intros Hr Ha E. unfold _tol in E. q_ops. q_props.
  pose proof (Qmult_le_0_compat _ _ (Qabs_nonneg x0) Hr) as Hnn.
  unfold inject_Z in E. intros Heq.
  assert (H0 : Qabs (x0 - x1) == 0).
  { setoid_replace (x0 - x1) with 0 by lra. reflexivity. }
  lra.
Qed.

(** The bisection, on two distinct points with equal values: the sorted
    triple is strictly increasing, and the exit code is 1 with a bracket, or
    5, which a strictly convex objective excludes. *)
Lemma run_resolve_equal_fvalue_Q (f : Q -> Q) (x0 x1 : Q) t e :
  Proper (Qeq ==> Qeq) f ->
  ~ x0 == x1 -> f x0 == f x1 ->
  run f (_resolve_equal_fvalue x0 x1 (f x0) (f x1)) = Returned (t, e) ->
  increasing t /\
  (e = 1%Z /\ is_bracket t \/ e = 5%Z /\ ~ strictly_convex f) /\
  (forall a b, a <= x0 -> x0 <= b -> a <= x1 -> x1 <= b -> within a b t).
Proof.
  intros Hf Hne Heq. cbn [_resolve_equal_fvalue run].
  set (xm := (x0 / of_int 2 + x1 / of_int 2)%num).
  assert (Hxm : xm == (1 # 2) * x0 + (1 - (1 # 2)) * x1).
  { unfold xm. q_ops. unfold inject_Z. field. }
  intros [= <- <-].
  assert (Hinc : increasing (_sort x0 xm x1 (f x0) (f xm) (f x1)) /\
                 forall a b, a <= x0 -> x0 <= b -> a <= x1 -> x1 <= b ->
                             within a b (_sort x0 xm x1 (f x0) (f xm) (f x1))).
  { destruct (_sort_cases x0 xm x1 (f x0) (f xm) (f x1)) as [[-> E]|[-> E]];
      q_ops; q_props; cbn [increasing within]; split; intros; lra. }
  destruct Hinc as [Hinc Hwithin]. repeat split; auto.
  destruct (bracketing (f x0) (f xm) (f x1)) eqn:Eb; cbn [negb]; [left|right];
    split; auto.
  - destruct (_sort x0 xm x1 (f x0) (f xm) (f x1))
      as [[[[[y0 y1] y2] g0] g1] g2] eqn:Es.
    apply _sort_bracketing in Es. rewrite Eb in Es.
    unfold bracketing in Es. apply andb_prop in Es as [E1 E2].
    q_ops. q_props. cbn [is_bracket]. lra.
  - intros Hconvex.
    assert (Hmid : f xm < (1 # 2) * f x0 + (1 - (1 # 2)) * f x1).
    { rewrite (Hf _ _ Hxm). apply Hconvex; [assumption|lra|lra]. }
    unfold bracketing in Eb. q_ops.
    destruct (Qlt_bool (f xm) (f x0)) eqn:E1, (Qlt_bool (f xm) (f x1)) eqn:E2;
      try discriminate; q_props; lra.
Qed.

(** The initial points lie within the bounds when the supplied ones do. *)
Lemma _initialize_interval_within (x0 x1 : option Q) (a b gfactor rtol atol p q : Q) :
  a <= b -> 1 < gfactor -> 0 <= rtol -> 0 <= atol ->
  start_within a b x0 -> start_within a b x1 ->
  _initialize_interval x0 x1 a b gfactor rtol atol = (p, q) ->
  (a <= p /\ p <= b) /\ (a <= q /\ q <= b).
Proof.
  intros Hab Hg Hr Ha H0 H1. unfold _initialize_interval.
  assert (Hstep : forall x, 0 <= (of_int 10 * gfactor * _tol x rtol atol)%num).
  { intros x. unfold _tol. q_ops. unfold inject_Z.
    pose proof (Qmult_le_0_compat _ _ (Qabs_nonneg x) Hr) as Hnn.
    apply Qmult_le_0_compat; lra. }
  destruct x0 as [u|], x1 as [v|];
    cbn [not_none flat_map app sorted fold_left insert start_within] in *.
  - destruct (v <? u)%num; intros [= <- <-]; lra.
  - set (s := (of_int 10 * gfactor * _tol u rtol atol)%num).
    pose proof (Hstep u) as Hs. fold s in Hs. unfold py_max, py_min. q_ops.
    repeat case_if; intros [= <- <-]; q_props; lra.
  - intros [= <- <-]; lra.
  - set (x := py_min (py_max (of_int 0) a) b).
    assert (Hx : a <= x /\ x <= b).
    { unfold x, py_min, py_max. q_ops. unfold inject_Z.
      repeat case_if; q_props; lra. }
    set (s := (of_int 10 * gfactor * _tol x rtol atol)%num).
    pose proof (Hstep x) as Hs. fold s in Hs. unfold py_max, py_min. q_ops.
    repeat case_if; intros [= <- <-]; q_props; lra.
Qed.

(** [_sort] on points in a row. *)
Lemma _sort_nondecreasing (x0 x1 x2 f0 f1 f2 : Q) :
  x0 <= x1 /\ x1 <= x2 \/ x2 <= x1 /\ x1 <= x0 ->
  nondecreasing (_sort x0 x1 x2 f0 f1 f2).
Proof.
  intros Hdir.
  destruct (_sort_cases x0 x1 x2 f0 f1 f2) as [[-> E]|[-> E]];
    q_ops; q_props; cbn [nondecreasing]; lra.
Qed.

Lemma _sort_increasing (x0 x1 x2 f0 f1 f2 : Q) :
  x0 < x1 /\ x1 < x2 \/ x2 < x1 /\ x1 < x0 ->
  increasing (_sort x0 x1 x2 f0 f1 f2).
Proof.
  intros Hdir.
  destruct (_sort_cases x0 x1 x2 f0 f1 f2) as [[-> E]|[-> E]];
    q_ops; q_props; cbn [increasing]; lra.
Qed.

Lemma _sort_within (a b x0 x1 x2 f0 f1 f2 : Q) :
  a <= x0 /\ x0 <= b -> a <= x2 /\ x2 <= b ->
  within a b (_sort x0 x1 x2 f0 f1 f2).
Proof.
  intros H0 H2.
  destruct (_sort_cases x0 x1 x2 f0 f1 f2) as [[-> E]|[-> E]];
    cbn [within]; lra.
Qed.

Lemma _sort_is_bracket (x0 x1 x2 f0 f1 f2 : Q) :
  bracketing f0 f1 f2 = true -> is_bracket (_sort x0 x1 x2 f0 f1 f2).
Proof.
  intros Hb. unfold bracketing in Hb. apply andb_prop in Hb as [E1 E2].
  destruct (_sort_cases x0 x1 x2 f0 f1 f2) as [[-> E]|[-> E]];
    q_ops; q_props; cbn [is_bracket]; lra.
Qed.

Lemma increasing_nondecreasing (t : sol (T:=Q)) : increasing t -> nondecreasing t.
Proof.
  destruct t as [[[[[y0 y1] y2] g0] g1] g2]. cbn [increasing nondecreasing]. lra.
Qed.

(** What a returning call of [bracket] yields, exit code by exit code. *)
Lemma bracket_outcomes (f : Q -> Q) (x0 x1 : option Q)
    (a b gfactor rtol atol : Q) (maxiter : Z) t e :
  Proper (Qeq ==> Qeq) f ->
  1 < gfactor -> 0 <= rtol -> 0 < atol ->
  run f (bracket x0 x1 a b gfactor rtol atol maxiter) = Returned (t, e) ->
  (e = 1%Z /\ increasing t /\ is_bracket t \/
   e = 2%Z /\ nondecreasing t \/
   e = 3%Z /\ nondecreasing t \/
   e = 4%Z /\ increasing t \/
   e = 5%Z /\ increasing t /\ ~ strictly_convex f) /\
  (a <= b -> start_within a b x0 -> start_within a b x1 -> within a b t).
Proof.
  intros Hf Hg Hr Ha. unfold bracket.
  destruct (gfactor >? of_int 1)%num; cbn [bind assert run]; [|discriminate].
  destruct (maxiter >? 0)%Z; cbn [bind assert run]; [|discriminate].
  destruct (_initialize_interval x0 x1 a b gfactor rtol atol) as [p q] eqn:Einit.
  cbn [run].
  assert (Hinit : a <= b -> start_within a b x0 -> start_within a b x1 ->
                  (a <= p /\ p <= b) /\ (a <= q /\ q <= b)).
  { intros Hab Hs0 Hs1.
    apply (@_initialize_interval_within x0 x1 a b gfactor rtol atol p q);
      auto; lra. }
  destruct (if (f p <? f q)%num then (q, p, f q, f p) else (p, q, f p, f q))
    as [[[u0 u1] v0] v1] eqn:Esw.
  assert (Hsw : v0 = f u0 /\ v1 = f u1 /\
                (a <= b -> start_within a b x0 -> start_within a b x1 ->
                 (a <= u0 /\ u0 <= b) /\ (a <= u1 /\ u1 <= b))).
  { destruct (f p <? f q)%num; injection Esw as <- <- <- <-;
      (split; [reflexivity|split; [reflexivity|]]);
      intros Hab Hs0 Hs1; destruct (Hinit Hab Hs0 Hs1); auto. }
  destruct Hsw as (-> & -> & Hu). clear Esw Hinit Einit.
  (* too close *)
  destruct (n_abs (u0 - u1) <? of_int 2 * _tol u0 rtol atol)%num eqn:Efar.
  { intros [= <- <-]. split.
    - right; right; left. split; auto. apply _sort_nondecreasing.
      destruct (Qlt_le_dec u1 u0); [right|left]; lra.
    - intros Hab Hs0 Hs1. destruct (Hu Hab Hs0 Hs1). now apply _sort_within. }
  apply (far_apart_distinct Hr Ha) in Efar.
  (* equal values *)
  destruct (f u0 =? f u1)%num eqn:Eeq.
  { intros Hrun. q_ops. q_props.
    destruct (run_resolve_equal_fvalue_Q Hf Efar Eeq Hrun) as (Hinc & He & Hw).
    split.
    - destruct He as [[-> Hb]|[-> Hc]]; auto 10.
    - intros Hab Hs0 Hs1. destruct (Hu Hab Hs0 Hs1). apply Hw; lra. }
  (* the assertions *)
  rewrite run_bind. unfold assert at 1.
  destruct ((a <=? u0) && (u0 <=? b))%num eqn:E0; cbn [run]; [|discriminate].
  rewrite run_bind. unfold assert at 1.
  destruct ((a <=? u1) && (u1 <=? b))%num eqn:E1; cbn [run]; [|discriminate].
  rewrite run_bind. unfold assert at 1.
  destruct (u0 !=? u1)%num; cbn [run]; [|discriminate].
  rewrite run_bind. unfold assert at 1. cbn [negb run].
  apply andb_prop in E0 as [E0a E0b]. apply andb_prop in E1 as [E1a E1b].
  (* the second point on a bound *)
  destruct (_boundary_equal u1 a b) eqn:Eb.
  { cbn [run]. intros [= <- <-]. q_ops. q_props. split.
    - right; left. split; auto. apply _sort_nondecreasing.
      destruct (Qlt_le_dec u1 u0); [right|left]; lra.
    - intros _ _ _. apply _sort_within; lra. }
  unfold _boundary_equal in Eb. apply orb_false_elim in Eb as [Eba Ebb].
  cbn [run]. q_ops. q_props.
  set (x2 := _ensure_boundary (u1 + (u1 - u0) * gfactor) a b).
  assert (Hrow : in_a_row a b u0 u1 x2).
  { assert (Hab : a <= b) by lra.
    destruct (_ensure_boundary_within (u1 + (u1 - u0) * gfactor) Hab)
      as [Hl Hh].
    fold x2 in Hl, Hh. unfold in_a_row. repeat split; try lra.
    destruct (Qlt_le_dec u0 u1); [left|right]; split; try lra.
    - apply _ensure_boundary_above; [nra|lra].
    - apply _ensure_boundary_below; [nra|lra|lra]. }
  (* equal values at the second and third points *)
  destruct (Qeq_bool (f u1) (f x2)) eqn:Eeq2.
  { intros Hrun. q_props.
    destruct Hrow as (H0a & H0b & H2a & H2b & Hdir).
    assert (Hne : ~ u1 == x2) by lra.
    destruct (run_resolve_equal_fvalue_Q Hf Hne Eeq2 Hrun) as (Hinc & He & Hw).
    split.
    - destruct He as [[-> Hb']|[-> Hc]]; auto 10.
    - intros _ _ _. apply Hw; lra. }
  (* the loop *)
  rewrite run_bind.
  destruct (run_expansion f a b gfactor maxiter (Z.to_nat maxiter) 0 u0 u1
              x2 (f u0) (f u1) (f x2))
    as [[nit [[[[[y0 y1] y2] g0] g1] g2]] Eloop].
  rewrite Eloop.
  apply (expansion_in_a_row f maxiter Hg _ _ _ _ _ Hrow) in Eloop.
  destruct Eloop as (H0a & H0b & H2a & H2b & Hdir).
  assert (Hinc : increasing (_sort y0 y1 y2 g0 g1 g2))
    by now apply _sort_increasing.
  assert (Hw : within a b (_sort y0 y1 y2 g0 g1 g2))
    by (apply _sort_within; lra).
  destruct (bracketing g0 g1 g2) eqn:Ebr; cbn [run].
  { intros [= <- <-]. split; auto. left. auto using _sort_is_bracket. }
  destruct (nit =? maxiter)%Z; cbn [run]; intros [= <- <-]; split; auto 10.
  right; left. auto using increasing_nondecreasing.
Qed.

(** A call that meets the preconditions, with bounds in order and the
    supplied starting points within them, returns: no assertion fails. *)
Lemma bracket_returns (f : Q -> Q) (x0 x1 : option Q)
    (a b gfactor rtol atol : Q) (maxiter : Z) :
  Proper (Qeq ==> Qeq) f ->
  1 < gfactor -> (0 < maxiter)%Z -> 0 <= rtol -> 0 < atol ->
  a <= b -> start_within a b x0 -> start_within a b x1 ->
  exists t e, run f (bracket x0 x1 a b gfactor rtol atol maxiter) = Returned (t, e).
Proof.
  intros Hf Hg Hm Hr Ha Hab Hs0 Hs1. unfold bracket.
  assert (Eg : (gfactor >? of_int 1)%num = true) by now apply Qlt_bool_iff.
  rewrite Eg. apply Z.gtb_lt in Hm. rewrite Hm. cbn [bind assert run].
  destruct (_initialize_interval x0 x1 a b gfactor rtol atol) as [p q] eqn:Einit.
  cbn [run].
  destruct (@_initialize_interval_within x0 x1 a b gfactor rtol atol p q)
    as [Hp Hq]; auto; try lra.
  destruct (if (f p <? f q)%num then (q, p, f q, f p) else (p, q, f p, f q))
    as [[[u0 u1] v0] v1] eqn:Esw.
  assert (Hsw : v0 = f u0 /\ v1 = f u1 /\
                (a <= u0 /\ u0 <= b) /\ (a <= u1 /\ u1 <= b)).
  { destruct (f p <? f q)%num; injection Esw as <- <- <- <-; auto. }
  destruct Hsw as (-> & -> & Hu0 & Hu1). clear Esw Einit.
  destruct (n_abs (u0 - u1) <? of_int 2 * _tol u0 rtol atol)%num eqn:Efar;
    [cbn [run]; eauto|].
  apply (far_apart_distinct Hr Ha) in Efar.
  destruct (f u0 =? f u1)%num eqn:Eeq;
    [cbn [_resolve_equal_fvalue run]; eauto|].
  assert (E0 : ((a <=? u0) && (u0 <=? b))%num = true).
  { apply andb_true_intro. q_ops. split; apply Qle_bool_iff; lra. }
  assert (E1 : ((a <=? u1) && (u1 <=? b))%num = true).
  { apply andb_true_intro. q_ops. split; apply Qle_bool_iff; lra. }
  assert (E2 : (u0 =? u1)%num = false) by now apply Qeq_bool_false_iff.
  rewrite E0, E1, E2. cbn [negb bind assert].
  destruct (_boundary_equal u1 a b); [cbn [run]; eauto|]. cbn [run].
  destruct (f u1 =? f _)%num; [cbn [_resolve_equal_fvalue run]; eauto|].
  rewrite run_bind.
  destruct (run_expansion f a b gfactor maxiter (Z.to_nat maxiter) 0 u0 u1
              (_ensure_boundary (u1 + (u1 - u0) * gfactor)%num a b)
              (f u0) (f u1)
              (f (_ensure_boundary (u1 + (u1 - u0) * gfactor)%num a b)))
    as [[nit [[[[[y0 y1] y2] g0] g1] g2]] ->].
  repeat case_if; cbn [run]; eauto.
Qed.

(** The parabola is a strictly convex objective. *)
Lemma parabola_proper (c : Q) : Proper (Qeq ==> Qeq) (parabola c).
Proof. intros x y E. unfold parabola. q_ops. now rewrite E. Qed.

Lemma parabola_strictly_convex (c : Q) : strictly_convex (parabola c).
Proof.
  intros x y t Hne Ht0 Ht1. unfold parabola. q_ops.
  assert (Hsq : 0 < (x - y) * (x - y)).
  { destruct (Q_dec x y) as [[Hlt|Hgt]|Heq]; [nra|nra|contradiction]. }
  assert (Hpos : 0 < t * (1 - t) * ((x - y) * (x - y))).
  { apply Qmult_lt_0_compat; [apply Qmult_lt_0_compat; lra|assumption]. }
  apply Qlt_minus_iff.
  setoid_replace (t * ((x - c) * (x - c)) + (1 - t) * ((y - c) * (y - c))
                  + - ((t * x + (1 - t) * y - c) * (t * x + (1 - t) * y - c)))
    with (t * (1 - t) * ((x - y) * (x - y))) by ring.
  exact Hpos.
Qed.



(** C4, as the code has it: the abscissas of every returned triple are
    non-decreasing, and strictly increasing under the exit codes 1, 4 and
    5; [_sort] reverses a triple exactly when its first abscissa is greater
    than its last. *)
Theorem bracket_abscissas_ordered (f : Q -> Q) (x0 x1 : option Q)
    (a b gfactor rtol atol : Q) (maxiter : Z) t e :
  Proper (Qeq ==> Qeq) f ->
  1 < gfactor -> 0 <= rtol -> 0 < atol ->
  run f (bracket x0 x1 a b gfactor rtol atol maxiter) = Returned (t, e) ->
  nondecreasing t /\
  ((e = 1 \/ e = 4 \/ e = 5)%Z -> increasing t) /\
  (forall y0 y1 y2 g0 g1 g2 : Q,
      _sort y0 y1 y2 g0 g1 g2 =
      if Qlt_bool y2 y0 then (y2, y1, y0, g2, g1, g0)
      else (y0, y1, y2, g0, g1, g2)).
Proof.
  intros Hf Hg Hr Ha Hrun.
  destruct (@bracket_outcomes f x0 x1 a b gfactor rtol atol maxiter t e
              Hf Hg Hr Ha Hrun) as [Hcases _].
  split; [|split; [|reflexivity]].
  - destruct Hcases as [(_ & H & _)|[(_ & H)|[(_ & H)|[(_ & H)|(_ & H & _)]]]];
      auto using increasing_nondecreasing.
  - destruct Hcases as [(_ & H & _)|[(-> & _)|[(-> & _)|[(_ & H)|(_ & H & _)]]]];
      auto; intros [E|[E|E]]; discriminate.
Qed.

End RationalFacts.

(** ** The growth of the expansion steps *)

Section Growth.

Local Open Scope Q_scope.

(** C8, as the code has it: an iteration of the loop goes from the window
    [(x0, x1, x2)] to [(x1, x2, xt)], where [xt] is [x2 + gfactor * (x2 - x1)]
    clamped into [[a, b]].  The new step is never longer than [gfactor]
    times the previous one; when the candidate needs no clamping it is that
    long exactly, and so strictly longer than the previous step. *)
Theorem expansion_step_growth (a b gfactor : Q) (maxiter : Z)
    (fuel : nat) (nit : Z) (x0 x1 x2 f0 f1 f2 : Q) :
  1 < gfactor -> ~ x1 == x2 ->
  continue a b maxiter nit x2 f0 f1 f2 = true ->
  let xt := next_point a b gfactor x1 x2 in
  expansion a b gfactor maxiter (S fuel) nit x0 x1 x2 f0 f1 f2
    = Call xt (fun ft =>
        expansion a b gfactor maxiter fuel (nit + 1) x1 x2 xt f1 f2 ft) /\
  Qabs (xt - x2) <= gfactor * Qabs (x2 - x1) /\
  (a <= x2 + gfactor * (x2 - x1) /\ x2 + gfactor * (x2 - x1) <= b ->
   Qabs (xt - x2) == gfactor * Qabs (x2 - x1) /\
   Qabs (x2 - x1) < Qabs (xt - x2)).
Proof.
  intros Hg Hne Hcont xt. split.
  { cbn [expansion]. rewrite Hcont. reflexivity. }
  unfold continue, _boundary_inside in Hcont.
  apply andb_prop in Hcont as [_ Hin]. apply andb_prop in Hin as [Hlo Hhi].
  q_ops. q_props.
  assert (Hxt : xt == x2 + gfactor * (x2 - x1) \/
                (b < x2 + gfactor * (x2 - x1) /\ xt == b) \/
                (x2 + gfactor * (x2 - x1) < a /\ xt == a)).
  { unfold xt, next_point, _ensure_boundary, py_max, py_min. q_ops.
    destruct (Qlt_bool b (x2 + gfactor * (x2 - x1))) eqn:E1;
      [destruct (Qlt_bool b a) eqn:E2
      |destruct (Qlt_bool (x2 + gfactor * (x2 - x1)) a) eqn:E2];
      q_props; try lra; auto using Qeq_refl. }
  assert (Hd : Qabs (gfactor * (x2 - x1)) == gfactor * Qabs (x2 - x1)).
  { rewrite Qabs_Qmult. rewrite (Qabs_pos gfactor) by lra. reflexivity. }
  assert (Hpos : 0 < Qabs (x2 - x1)).
  { apply Qabs_case; intros; lra. }
  split.
  - rewrite <- Hd.
    destruct Hxt as [E|[[Hb E]|[Ha E]]]; rewrite E.
    + setoid_replace (x2 + gfactor * (x2 - x1) - x2)
        with (gfactor * (x2 - x1)) by ring.
      apply Qle_refl.
    + rewrite (Qabs_pos (b - x2)) by lra. apply Qabs_case; intros; lra.
    + rewrite (Qabs_neg (a - x2)) by lra. apply Qabs_case; intros; lra.
  - intros [Ha Hb].
    assert (E : xt == x2 + gfactor * (x2 - x1)).
    { destruct Hxt as [E|[[Hb' E]|[Ha' E]]]; auto; lra. }
    assert (Hlen : Qabs (xt - x2) == gfactor * Qabs (x2 - x1)).
    { rewrite E, <- Hd.
      setoid_replace (x2 + gfactor * (x2 - x1) - x2)
        with (gfactor * (x2 - x1)) by ring.
      reflexivity. }
    split; [exact Hlen|]. rewrite Hlen. nra.
Qed.

End Growth.

(** ** Runs on concrete inputs *)

Section Runs.



(** C4 as stated fails: the too-close return duplicates a point, and so
    does the return for a second point that sits on a bound. *)
Lemma bracket_duplicated_abscissa :
  run (parabola 2%float)
      (bracket (Some 1%float) (Some 1%float) 0%float 4%float 2%float
               _eps _eps 500)
    = Returned ((1, 1, 1, 1, 1, 1)%float, 3%Z) /\
  run downhill
      (bracket (Some 0.5%float) (Some 1%float) 0%float 1%float 2%float
               _eps _eps 500)
    = Returned ((0.5, 1, 1, -0.5, -1, -1)%float, 2%Z) /\
  PrimFloat.ltb 1 1 = false.
Proof. repeat split; vm_compute; reflexivity. Qed.

Lemma bracket_abscissas_ordered_witness :
  exists t e,
    run (parabola 2)
        (bracket (Some 0%Q) (Some 1%Q) (- (10))%Q 10%Q 2%Q _eps_Q _eps_Q 500)
      = Returned (t, e) /\
    nondecreasing t /\ ((e = 1 \/ e = 4 \/ e = 5)%Z -> increasing t).
Proof.
  eexists. eexists. split; [vm_compute; reflexivity|].
  destruct (@bracket_abscissas_ordered (parabola 2) (Some 0%Q) (Some 1%Q)
              (- (10))%Q 10%Q 2%Q _eps_Q _eps_Q 500
              (1, 8 # 4, 3, 1, 0 # 16, 1)%Q 1%Z) as (Hnd & Hinc & _);
    auto using parabola_proper; try reflexivity; try discriminate.
Defined.

(** C8 as stated fails: in this run the loop's one iteration goes from the
    window [(0, 0.25, 0.75)] to the bound 1, a step of 0.25 after a step of
    0.5. *)
Lemma expansion_step_shrinks :
  evals downhill
    (bracket (Some 0%float) (Some 0.25%float) 0%float 1%float 2%float
             _eps _eps 500)
    = [0; 0.25; 0.75; 1]%float /\
  evals downhill
    (expansion 0%float 1%float 2%float 500 (Z.to_nat 500) 0 0%float
               0.25%float 0.75%float
               (downhill 0) (downhill 0.25) (downhill 0.75))
    = [1%float] /\
  next_point 0%float 1%float 2%float 0.25%float 0.75%float = 1%float /\
  PrimFloat.ltb (abs (1 - 0.75)) (abs (0.75 - 0.25)) = true.
Proof. repeat split; vm_compute; reflexivity. Qed.

Lemma expansion_step_growth_witness :
  (Qabs (next_point 0 10 2 (1 # 4) (3 # 4) - (3 # 4))
     == 2 * Qabs ((3 # 4) - (1 # 4)))%Q /\
  (Qabs ((3 # 4) - (1 # 4)) < Qabs (next_point 0 10 2 (1 # 4) (3 # 4) - (3 # 4)))%Q.
Proof.
  destruct (@expansion_step_growth 0%Q 10%Q 2%Q 500 0 0
              0%Q (1 # 4) (3 # 4) 0%Q (- (1 # 4))%Q (- (3 # 4))%Q)
    as (_ & _ & Hfree); try reflexivity; try discriminate.
  apply Hfree. split; discriminate.
Defined.

End Runs.

(** ** The helpers of [bracket], for every ordered number type *)

Section HelperFacts.

Context {T : Type} `{OrderLaws T}.
Local Open Scope num_scope.

(** X1: [_sort] compares the outer abscissas only.  Its result never has
    the first abscissa greater than the last; the middle point stays where
    it is; each outer abscissa keeps its value; and sorting again changes
    nothing. *)
Theorem _sort_canonical (x0 x1 x2 f0 f1 f2 y0 y1 y2 g0 g1 g2 : T) :
  _sort x0 x1 x2 f0 f1 f2 = (y0, y1, y2, g0, g1, g2) ->
  (y0 >? y2) = false /\
  (y1, g1) = (x1, f1) /\
  ((y0, g0, y2, g2) = (x0, f0, x2, f2) \/ (y0, g0, y2, g2) = (x2, f2, x0, f0)) /\
  _sort y0 y1 y2 g0 g1 g2 = (y0, y1, y2, g0, g1, g2).
Proof.
  intros Hs.
  destruct (_sort_cases x0 x1 x2 f0 f1 f2) as [[E Hle]|[E Hgt]];
    rewrite E in Hs; injection Hs as <- <- <- <- <- <-.
  - repeat split; auto.
  - pose proof (lt_asym _ _ Hgt) as Hasym.
    repeat split; auto. unfold _sort. now rewrite Hasym.
Qed.

(** X2: [_ensure_boundary] leaves a point that is within the bounds as it
    is (binary64 included). *)
Theorem _ensure_boundary_fixes_inside (x a b : T) :
  (a <=? x) = true -> (x <=? b) = true -> _ensure_boundary x a b = x.
Proof.
  intros Ha Hb. unfold _ensure_boundary, py_max, py_min.
  rewrite (le_not_lt _ _ Hb), (le_not_lt _ _ Ha). reflexivity.
Qed.

(** X3: a point strictly inside the bounds is on neither of them: the test
    of the loop guard and the test for a point on a bound exclude each
    other. *)
Theorem _boundary_inside_not_equal (x a b : T) :
  _boundary_inside x a b = true -> _boundary_equal x a b = false.
Proof.
  unfold _boundary_inside, _boundary_equal. intros E.
  apply andb_prop in E as [Ea Eb].
  destruct (lt_not_eq _ _ Ea) as [_ ->].
  destruct (lt_not_eq _ _ Eb) as [-> _]. reflexivity.
Qed.

(** X4: with both starting points supplied, [_initialize_interval] returns
    the same two points, the smaller first: they are swapped exactly when
    [x1 < x0]. *)
Theorem _initialize_interval_both (u v a b gfactor rtol atol : T) :
  _initialize_interval (Some u) (Some v) a b gfactor rtol atol
    = (if v <? u then (v, u) else (u, v)) /\
  (let '(p, q) := _initialize_interval (Some u) (Some v) a b gfactor rtol atol in
   (q <? p) = false).
Proof.
  unfold _initialize_interval.
  cbn [not_none flat_map app sorted fold_left insert].
  destruct (v <? u) eqn:E; split; auto. now apply lt_asym.
Qed.

End HelperFacts.

(** ** What every call of [bracket] does, for every number type *)

Section BracketRuns.

Context {T : Type} `{Number T}.
Local Open Scope num_scope.
Local Open Scope prog_scope.

Variable f : T -> T.

(** The loop, started on values of [f], returns values of [f]; it counts its
    evaluations in [nit]; and with fuel enough it exits with its guard
    false. *)
Lemma expansion_result (a b gfactor : T) (maxiter : Z) (fuel : nat) :
  forall nit x0 x1 x2,
  exists n y0 y1 y2,
    run f (expansion a b gfactor maxiter fuel nit x0 x1 x2 (f x0) (f x1) (f x2))
      = Returned (n, (y0, y1, y2, f y0, f y1, f y2)) /\
    Z.of_nat (length (evals f
       (expansion a b gfactor maxiter fuel nit x0 x1 x2 (f x0) (f x1) (f x2))))
      = (n - nit)%Z /\
    ((maxiter - nit <= Z.of_nat fuel)%Z ->
     continue a b maxiter n y2 (f y0) (f y1) (f y2) = false).
Proof.
  induction fuel as [|fuel IH]; intros nit x0 x1 x2; cbn [expansion].
  - destruct (continue a b maxiter nit x2 (f x0) (f x1) (f x2)) eqn:E;
      cbn [run evals length]; exists nit, x0, x1, x2;
      (split; [reflexivity|split; [lia|]]); auto.
    intros Hfuel. unfold continue in E. apply andb_prop in E as [E _].
    apply andb_prop in E as [_ E]. apply Z.ltb_lt in E. simpl in Hfuel. lia.
  - destruct (continue a b maxiter nit x2 (f x0) (f x1) (f x2)) eqn:E;
      cbn [run evals length].
    + destruct (IH (nit + 1)%Z x1 x2 (next_point a b gfactor x1 x2))
        as (n & y0 & y1 & y2 & Hrun & Hlen & Hexit).
      exists n, y0, y1, y2. split; [exact Hrun|]. split; [lia|].
      intros Hfuel. apply Hexit. lia.
    + exists nit, x0, x1, x2. split; [reflexivity|]. split; [lia|]. auto.
Qed.

(** The ways in which [bracket] returns: the tuple is [_sort] applied to
    three points and the values of [f] there; the exit code is one of 1 to
    5; code 4 means [maxiter] iterations of the loop. *)
Lemma bracket_returned (x0 x1 : option T) (a b gfactor rtol atol : T)
    (maxiter : Z) (t : sol) (e : Z) :
  run f (bracket x0 x1 a b gfactor rtol atol maxiter) = Returned (t, e) ->
  (exists u0 u1 u2, t = _sort u0 u1 u2 (f u0) (f u1) (f u2)) /\
  (1 <= e <= 5)%Z /\
  (e = 4%Z ->
   Z.of_nat (length (evals f (bracket x0 x1 a b gfactor rtol atol maxiter)))
     = (maxiter + 3)%Z).
Proof.
  unfold bracket.
  destruct (gfactor >? of_int 1); cbn [bind assert run evals]; [|discriminate].
  destruct (maxiter >? 0)%Z; cbn [bind assert run evals]; [|discriminate].
  destruct (_initialize_interval x0 x1 a b gfactor rtol atol) as [p q].
  cbn [run evals].
  destruct (if f p <? f q then (q, p, f q, f p) else (p, q, f p, f q))
    as [[[u0 u1] v0] v1] eqn:Esw.
  assert (Hsw : v0 = f u0 /\ v1 = f u1).
  { destruct (f p <? f q); injection Esw as <- <- <- <-; auto. }
  destruct Hsw as [-> ->]. clear Esw.
  case_if.
  { cbn [run]. intros [= <- <-]. split; [eauto|]. split; [lia|discriminate]. }
  case_if.
  { cbn [_resolve_equal_fvalue run]. intros [= <- <-]. split; [eauto|].
    destruct (bracketing _ _ _); cbn [negb]; split; try lia; discriminate. }
  repeat (rewrite run_bind, evals_bind; unfold assert at 1 2 3; case_if;
          cbn [run evals app]; [|discriminate]).
  case_if.
  { cbn [run]. intros [= <- <-]. split; [eauto|]. split; [lia|discriminate]. }
  cbn [run evals]. case_if.
  { cbn [_resolve_equal_fvalue run]. intros [= <- <-]. split; [eauto|].
    destruct (bracketing _ _ _); cbn [negb]; split; try lia; discriminate. }
  rewrite run_bind, evals_bind.
  set (x2 := _ensure_boundary (u1 + (u1 - u0) * gfactor) a b).
  destruct (expansion_result a b gfactor maxiter (Z.to_nat maxiter) 0 u0 u1 x2)
    as (n & y0 & y1 & y2 & Hrun & Hlen & _).
  rewrite Hrun.
  destruct (bracketing (f y0) (f y1) (f y2)); cbn [run evals].
  { intros [= <- <-]. split; [eauto|]. split; [lia|discriminate]. }
  destruct (n =? maxiter)%Z eqn:En; cbn [run evals]; intros [= <- <-];
    (split; [eauto|]); (split; [lia|]); try discriminate.
  intros _. apply Z.eqb_eq in En. cbn [length]. rewrite length_app.
  cbn [length]. lia.
Qed.

(** X5: the values in a returned tuple are the objective's values at the
    tuple's abscissas, under every exit code. *)
Theorem bracket_values_at_abscissas (x0 x1 : option T) (a b gfactor rtol atol : T)
    (maxiter : Z) (y0 y1 y2 g0 g1 g2 : T) (e : Z) :
  run f (bracket x0 x1 a b gfactor rtol atol maxiter)
    = Returned ((y0, y1, y2, g0, g1, g2), e) ->
  g0 = f y0 /\ g1 = f y1 /\ g2 = f y2.
Proof.
  intros Hrun. destruct (bracket_returned _ _ _ _ _ _ _ _ Hrun)
    as [(u0 & u1 & u2 & Ht) _].
  destruct (_sort_cases u0 u1 u2 (f u0) (f u1) (f u2)) as [[E _]|[E _]];
    rewrite E in Ht; injection Ht as -> -> -> -> -> ->; auto.
Qed.

(** X6: the exit code 0 ("unknown") is never returned: a call that returns
    does so with one of the codes 1 to 5. *)
Theorem bracket_exit_code (x0 x1 : option T) (a b gfactor rtol atol : T)
    (maxiter : Z) (t : sol) (e : Z) :
  run f (bracket x0 x1 a b gfactor rtol atol maxiter) = Returned (t, e) ->
  (e = 1 \/ e = 2 \/ e = 3 \/ e = 4 \/ e = 5)%Z.
Proof.
  intros Hrun. destruct (bracket_returned _ _ _ _ _ _ _ _ Hrun) as (_ & He & _).
  lia.
Qed.

(** X7: the exit code 4 means that the loop ran [maxiter] times: the
    objective was then evaluated exactly [maxiter + 3] times. *)
Theorem bracket_max_iterations_evaluations (x0 x1 : option T)
    (a b gfactor rtol atol : T) (maxiter : Z) (t : sol) :
  run f (bracket x0 x1 a b gfactor rtol atol maxiter) = Returned (t, 4%Z) ->
  Z.of_nat (length (evals f (bracket x0 x1 a b gfactor rtol atol maxiter)))
    = (maxiter + 3)%Z.
Proof.
  intros Hrun. destruct (bracket_returned _ _ _ _ _ _ _ _ Hrun) as (_ & _ & H4).
  now apply H4.
Qed.

(** X8: how a call fails.  An assertion error comes either at once, with no
    evaluation, because [gfactor > 1] or [maxiter > 0] is false, or right
    after the evaluations at the two initial points, at one of the later
    assertions. *)
Theorem bracket_failure_evaluations (x0 x1 : option T) (a b gfactor rtol atol : T)
    (maxiter : Z) :
  run f (bracket x0 x1 a b gfactor rtol atol maxiter) = Raised ->
  evals f (bracket x0 x1 a b gfactor rtol atol maxiter) = [] /\
    ((gfactor >? of_int 1) = false \/ (maxiter <= 0)%Z) \/
  evals f (bracket x0 x1 a b gfactor rtol atol maxiter)
    = [fst (_initialize_interval x0 x1 a b gfactor rtol atol);
       snd (_initialize_interval x0 x1 a b gfactor rtol atol)] /\
    (gfactor >? of_int 1) = true /\ (0 < maxiter)%Z.
Proof.
  unfold bracket.
  destruct (gfactor >? of_int 1); cbn [bind assert run evals]; [|auto].
  destruct (Z.gtb_spec maxiter 0) as [Hm|Hm]; cbn [bind assert run evals];
    [|auto].
  destruct (_initialize_interval x0 x1 a b gfactor rtol atol) as [p q].
  cbn [run evals fst snd].
  destruct (if f p <? f q then (q, p, f q, f p) else (p, q, f p, f q))
    as [[[u0 u1] v0] v1].
  case_if; [discriminate|].
  case_if; [cbn [_resolve_equal_fvalue run]; discriminate|].
  repeat (rewrite run_bind, evals_bind; unfold assert at 1 2 3; case_if;
          cbn [run evals app]; [|intros _; right; repeat split; auto; lia]).
  case_if; [discriminate|]. cbn [run]. case_if;
    [cbn [_resolve_equal_fvalue run]; discriminate|].
  rewrite run_bind.
  destruct (run_expansion f a b gfactor maxiter (Z.to_nat maxiter) 0 u0 u1
              (_ensure_boundary (u1 + (u1 - u0) * gfactor) a b) v0 v1
              (f (_ensure_boundary (u1 + (u1 - u0) * gfactor) a b)))
    as [[nit [[[[[w0 w1] w2] h0] h1] h2]] ->].
  repeat case_if; discriminate.
Qed.

End BracketRuns.

(** ** Exact rationals: bounds and starting points *)

Section RationalBounds.

Local Open Scope Q_scope.

(** The loop never counts past [maxiter]. *)
Lemma expansion_nit_bound (f : Q -> Q) (a b gfactor : Q) (maxiter : Z) (fuel : nat) :
  forall nit x0 x1 x2 f0 f1 f2 n t,
    (nit <= maxiter)%Z ->
    run f (expansion a b gfactor maxiter fuel nit x0 x1 x2 f0 f1 f2)
      = Returned (n, t) ->
    (n <= maxiter)%Z.
Proof.
  induction fuel as [|fuel IH]; intros nit x0 x1 x2 f0 f1 f2 n t Hnit;
    cbn [expansion].
  - destruct (continue _ _ _ _ _ _ _); cbn [run]; intros [= <- _]; exact Hnit.
  - destruct (continue a b maxiter nit x2 f0 f1 f2) eqn:E; cbn [run].
    + apply IH. unfold continue in E. apply andb_prop in E as [E _].
      apply andb_prop in E as [_ E]. apply Z.ltb_lt in E. lia.
    + intros [= <- _]; exact Hnit.
Qed.

(** X9: the exit code 2 means that an outer abscissa of the returned triple
    sits on a bound: [x0 == a] or [x2 == b], the triple lying within
    [[a, b]]. *)
Theorem bracket_hit_boundary_on_bound (f : Q -> Q) (x0 x1 : option Q)
    (a b gfactor rtol atol : Q) (maxiter : Z) (y0 y1 y2 g0 g1 g2 : Q) :
  run f (bracket x0 x1 a b gfactor rtol atol maxiter)
    = Returned ((y0, y1, y2, g0, g1, g2), 2%Z) ->
  (a <= y0 /\ y2 <= b) /\ (y0 == a \/ y2 == b).
Proof.
  unfold bracket.
  destruct (gfactor >? of_int 1)%num eqn:Eg; cbn [bind assert run];
    [|discriminate].
  destruct (Z.gtb_spec maxiter 0) as [Hm|Hm]; cbn [bind assert run];
    [|discriminate].
  destruct (_initialize_interval x0 x1 a b gfactor rtol atol) as [p q].
  cbn [run].
  destruct (if (f p <? f q)%num then (q, p, f q, f p) else (p, q, f p, f q))
    as [[[u0 u1] v0] v1] eqn:Esw.
  assert (Hsw : v0 = f u0 /\ v1 = f u1).
  { destruct (f p <? f q)%num; injection Esw as <- <- <- <-; auto. }
  destruct Hsw as [-> ->]. clear Esw.
  case_if; [discriminate|].
  case_if.
  { cbn [_resolve_equal_fvalue run]. destruct (bracketing _ _ _); discriminate. }
  rewrite run_bind. unfold assert at 1.
  destruct ((a <=? u0) && (u0 <=? b))%num eqn:E0; cbn [run]; [|discriminate].
  rewrite run_bind. unfold assert at 1.
  destruct ((a <=? u1) && (u1 <=? b))%num eqn:E1; cbn [run]; [|discriminate].
  rewrite run_bind. unfold assert at 1.
  destruct (u0 =? u1)%num eqn:E01; cbn [negb run]; [discriminate|].
  rewrite run_bind. unfold assert at 1. cbn [negb run].
  apply andb_prop in E0 as [E0a E0b]. apply andb_prop in E1 as [E1a E1b].
  q_ops. q_props.
  assert (Hg : 1 < gfactor) by exact Eg.
  destruct (_boundary_equal u1 a b) eqn:Eb.
  { cbn [run]. intros [= Hs].
    unfold _boundary_equal in Eb. q_ops.
    destruct (_sort_cases u0 u1 u1 (f u0) (f u1) (f u1)) as [[E Hle]|[E Hgt]];
      rewrite E in Hs; injection Hs as <- <- <- <- <- <-;
      q_ops; q_props; split; try lra;
      apply orb_prop in Eb as [Eb|Eb]; q_props; lra. }
  unfold _boundary_equal in Eb. apply orb_false_elim in Eb as [Eba Ebb].
  q_ops. q_props. cbn [run].
  set (x2 := _ensure_boundary (u1 + (u1 - u0) * gfactor) a b).
  assert (Hrow : in_a_row a b u0 u1 x2).
  { assert (Hab : a <= b) by lra.
    destruct (_ensure_boundary_within (u1 + (u1 - u0) * gfactor) Hab)
      as [Hl Hh].
    fold x2 in Hl, Hh. unfold in_a_row. repeat split; try lra.
    destruct (Qlt_le_dec u0 u1); [left|right]; split; try lra.
    - apply _ensure_boundary_above; [nra|lra].
    - apply _ensure_boundary_below; [nra|lra|lra]. }
  case_if.
  { cbn [_resolve_equal_fvalue run]. destruct (bracketing _ _ _); discriminate. }
  rewrite run_bind.
  destruct (expansion_result f a b gfactor maxiter (Z.to_nat maxiter) 0 u0 u1 x2)
    as (n & w0 & w1 & w2 & Hrun & _ & Hexit).
  rewrite Hrun.
  pose proof (expansion_in_a_row f maxiter Hg _ _ _ _ _ Hrow Hrun) as Hrow'.
  apply expansion_nit_bound in Hrun; [|lia].
  specialize (Hexit ltac:(lia)). unfold continue in Hexit.
  destruct (bracketing (f w0) (f w1) (f w2)); cbn [run]; [discriminate|].
  destruct (Z.eqb_spec n maxiter) as [En|En]; cbn [run]; [discriminate|].
  intros [= Hs]. cbn [negb andb] in Hexit.
  assert (Hlt : (n <? maxiter)%Z = true) by (apply Z.ltb_lt; lia).
  rewrite Hlt in Hexit. cbn [andb] in Hexit.
  unfold _boundary_inside in Hexit. q_ops.
  destruct Hrow' as (H0a & H0b & H2a & H2b & Hdir).
  destruct (_sort_cases w0 w1 w2 (f w0) (f w1) (f w2)) as [[E Hle]|[E Hgt]];
    rewrite E in Hs; injection Hs as <- <- <- <- <- <-;
    q_ops; q_props; (split; [lra|]);
    apply andb_false_elim in Hexit as [Hx|Hx]; q_props; lra.
Qed.

(** X10: with bounds in order, [_ensure_boundary] brings every point into
    [[a, b]]: a point below [a] becomes [a], a point above [b] becomes [b]. *)
Theorem _ensure_boundary_clamps (x a b : Q) :
  a <= b ->
  (a <= _ensure_boundary x a b /\ _ensure_boundary x a b <= b) /\
  (x < a -> _ensure_boundary x a b = a) /\
  (b < x -> _ensure_boundary x a b = b).
Proof.
  intros Hab. split; [now apply _ensure_boundary_within|].
  unfold _ensure_boundary, py_max, py_min. q_ops.
  destruct (Qlt_bool b x) eqn:E1;
    [destruct (Qlt_bool b a) eqn:E2 | destruct (Qlt_bool x a) eqn:E2];
    q_props; split; intros; auto; lra.
Qed.

(** X11: with reversed bounds, [a > b], [_ensure_boundary] sends every point
    to [a]. *)
Theorem _ensure_boundary_reversed_bounds (x a b : Q) :
  b < a -> _ensure_boundary x a b = a.
Proof.
  intros Hba. unfold _ensure_boundary, py_max, py_min. q_ops.
  destruct (Qlt_bool b x) eqn:E1;
    [destruct (Qlt_bool b a) eqn:E2 | destruct (Qlt_bool x a) eqn:E2];
    q_props; auto; lra.
Qed.

(** X12: a call that supplies [x1] alone starts from [x1] twice: it
    evaluates the objective twice at [x1] and returns exit code 3 with
    [(x1, x1, x1)]. *)
Theorem bracket_second_point_only (f : Q -> Q) (v a b gfactor rtol atol : Q)
    (maxiter : Z) :
  1 < gfactor -> (0 < maxiter)%Z -> 0 <= rtol -> 0 < atol ->
  _initialize_interval None (Some v) a b gfactor rtol atol = (v, v) /\
  run f (bracket None (Some v) a b gfactor rtol atol maxiter)
    = Returned ((v, v, v, f v, f v, f v), 3%Z) /\
  evals f (bracket None (Some v) a b gfactor rtol atol maxiter) = [v; v].
Proof.
  intros Hg Hm Hr Ha.
  assert (Hinit : _initialize_interval None (Some v) a b gfactor rtol atol
                  = (v, v)) by reflexivity.
  split; [exact Hinit|].
  unfold bracket. rewrite Hinit.
  assert (Eg : (gfactor >? of_int 1)%num = true) by now apply Qlt_bool_iff.
  rewrite Eg. apply Z.gtb_lt in Hm. rewrite Hm. cbn [bind assert run evals].
  assert (Eff : (f v <? f v)%num = false).
  { q_ops. apply Qlt_bool_false_iff. apply Qle_refl. }
  rewrite Eff.
  assert (Eclose : (n_abs (v - v) <? of_int 2 * _tol v rtol atol)%num = true).
  { unfold _tol. q_ops. apply Qlt_bool_iff. unfold inject_Z.
    pose proof (Qmult_le_0_compat _ _ (Qabs_nonneg v) Hr) as Hnn.
    setoid_replace (v - v) with 0 by ring. change (Qabs 0) with 0. lra. }
  rewrite Eclose. cbn [run evals].
  assert (Evv : (v >? v)%num = false).
  { q_ops. apply Qlt_bool_false_iff. apply Qle_refl. }
  unfold _sort. rewrite Evv. auto.
Qed.

(** X13: from [x0] alone, the second point is taken
    [10 * gfactor * _tol(x0)] away, toward the bound that is farther from
    [x0], and no farther than that bound. *)
Theorem _initialize_interval_first_only (u a b gfactor rtol atol : Q) :
  a <= u -> u <= b -> 1 < gfactor -> 0 <= rtol -> 0 <= atol ->
  exists q,
    _initialize_interval (Some u) None a b gfactor rtol atol = (u, q) /\
    (a <= q /\ q <= b) /\
    Qabs (q - u) <= 10 * gfactor * _tol u rtol atol /\
    (b - u < u - a -> q <= u) /\
    (u - a <= b - u -> u <= q).
Proof.
  intros Hau Hub Hg Hr Ha. unfold _initialize_interval.
  cbn [not_none flat_map app sorted fold_left insert].
  set (s := (of_int 10 * gfactor * _tol u rtol atol)%num).
  change (10 * gfactor * _tol u rtol atol) with s.
  assert (Hs : 0 <= s).
  { unfold s, _tol. q_ops. unfold inject_Z.
    pose proof (Qmult_le_0_compat _ _ (Qabs_nonneg u) Hr) as Hnn.
    apply Qmult_le_0_compat; lra. }
  clearbody s. unfold py_max, py_min. q_ops.
  destruct (Qlt_bool (b - u) (u - a)) eqn:Eside;
    [destruct (Qlt_bool (u - s) a) eqn:Ec
    |destruct (Qlt_bool b (u + s)) eqn:Ec];
    q_props; eexists; (split; [reflexivity|]);
    (split; [lra|]); (split; [apply Qabs_case; intros; lra|]);
    split; intros; lra.
Qed.

(** X14: with no starting point supplied, the first point is 0 brought into
    the bounds: 0 itself when [a <= 0 <= b], [a] when [0 < a], [b] when
    [b < 0]. *)
Theorem _initialize_interval_default (a b gfactor rtol atol : Q) :
  a <= b ->
  (a <= 0 -> 0 <= b ->
   fst (_initialize_interval None None a b gfactor rtol atol) = 0) /\
  (0 < a -> fst (_initialize_interval None None a b gfactor rtol atol) = a) /\
  (b < 0 -> fst (_initialize_interval None None a b gfactor rtol atol) = b).
Proof.
  intros Hab. unfold _initialize_interval.
  cbn [not_none flat_map app sorted fold_left insert fst].
  unfold py_max, py_min. q_ops.
  change (inject_Z 0) with 0.
  destruct (Qlt_bool 0 a) eqn:E1;
    [destruct (Qlt_bool b a) eqn:E2 | destruct (Qlt_bool b 0) eqn:E2];
    q_props; repeat split; intros; auto; lra.
Qed.

(** X15: on two distinct points where a strictly convex objective takes
    equal values, [_resolve_equal_fvalue] finds a bracket: exit code 1, the
    midpoint strictly between the two points and strictly below them in
    value. *)
Theorem _resolve_equal_fvalue_convex (f : Q -> Q) (x0 x1 : Q) :
  Proper (Qeq ==> Qeq) f -> strictly_convex f ->
  ~ x0 == x1 -> f x0 == f x1 ->
  exists t,
    run f (_resolve_equal_fvalue x0 x1 (f x0) (f x1)) = Returned (t, 1%Z) /\
    increasing t /\ is_bracket t.
Proof.
  intros Hf Hconvex Hne Heq.
  destruct (run_resolve_equal_fvalue f x0 x1 (f x0) (f x1)) as [Hrun _].
  cbv zeta in Hrun.
  destruct (run_resolve_equal_fvalue_Q Hf Hne Heq Hrun) as (Hinc & He & _).
  destruct He as [[He Hb]|[_ Hnc]]; [|contradiction].
  rewrite He in Hrun. eauto.
Qed.

(** X16: the tolerance is at least [atol] when [rtol >= 0], and is the same
    at [x] and at [-x]. *)
Theorem _tol_bounds (x rtol atol : Q) :
  0 <= rtol ->
  atol <= _tol x rtol atol /\ _tol (- x) rtol atol == _tol x rtol atol.
Proof.
  intros Hr. unfold _tol. q_ops.
  pose proof (Qmult_le_0_compat _ _ (Qabs_nonneg x) Hr) as Hnn.
  split; [lra|]. now rewrite Qabs_opp.
Qed.

(** X19: a call that meets the preconditions, with bounds in order and the
    supplied starting points within them, fails at none of the assertions:
    it returns, and the triple it returns lies within [[a, b]]. *)
Theorem bracket_returns_within (f : Q -> Q) (x0 x1 : option Q)
    (a b gfactor rtol atol : Q) (maxiter : Z) :
  Proper (Qeq ==> Qeq) f ->
  1 < gfactor -> (0 < maxiter)%Z -> 0 <= rtol -> 0 < atol ->
  a <= b -> start_within a b x0 -> start_within a b x1 ->
  exists t e,
    run f (bracket x0 x1 a b gfactor rtol atol maxiter) = Returned (t, e) /\
    within a b t /\ nondecreasing t.
Proof.
  intros Hf Hg Hm Hr Ha Hab Hs0 Hs1.
  destruct (bracket_returns x0 x1 Hf Hg Hm Hr Ha Hab Hs0 Hs1) as (t & e & Hrun).
  exists t, e. split; [exact Hrun|].
  destruct (@bracket_outcomes f x0 x1 a b gfactor rtol atol maxiter t e
              Hf Hg Hr Ha Hrun) as [Hcases Hwithin].
  split; [now apply Hwithin|].
  destruct Hcases as [(_ & H & _)|[(_ & H)|[(_ & H)|[(_ & H)|(_ & H & _)]]]];
    auto using increasing_nondecreasing.
Qed.

End RationalBounds.

(** ** How [minimize] composes [bracket] and [brent] *)

Section MinimizeRuns.

Context {T : Type} `{Number T}.
Variable R : Type.
Variable brent : T -> T -> T -> T -> T -> T -> T -> T -> Z -> prog T (T * T * R).
Variable W : Type.
Local Open Scope num_scope.

(** X17: [minimize] hands the triple of [bracket] to [brent] as
    [(x0, x2, f0, f2, x1, f1)] whatever the exit code is, returns the first
    two components of [brent]'s result, and counts the evaluations of both. *)
Theorem minimize_composes (f : T -> T) (x0 x1 : option T)
    (a b gfactor rtol atol : T) (maxiter : Z)
    (y0 y1 y2 g0 g1 g2 : T) (e : Z) (x_min f_min : T) (r : R) (w : W) :
  run f (bracket x0 x1 a b gfactor rtol atol maxiter)
    = Returned ((y0, y1, y2, g0, g1, g2), e) ->
  run f (brent y0 y2 g0 g2 y1 g1 rtol atol maxiter)
    = Returned (x_min, f_min, r) ->
  let n := (length (evals f (bracket x0 x1 a b gfactor rtol atol maxiter))
            + length (evals f (brent y0 y2 g0 g2 y1 g1 rtol atol maxiter)))%nat in
  minimize brent (counted (fun x (w : W) => (f x, w)))
           x0 x1 a b gfactor rtol atol maxiter (0%nat, w)
    = (Returned (x_min, f_min, Z.of_nat n), (n, w)).
Proof.
  intros Hbracket Hbrent n. unfold minimize. rewrite exec_func_pure.
  unfold minimize_calls at 1. rewrite run_bind, Hbracket, run_bind, Hbrent.
  cbn [run]. f_equal. f_equal.
  unfold n, minimize_calls.
  rewrite evals_bind, Hbracket, evals_bind, Hbrent. cbn [evals].
  now rewrite app_nil_r, length_app.
  unfold n, minimize_calls.
  rewrite evals_bind, Hbracket, evals_bind, Hbrent. cbn [evals].
  now rewrite app_nil_r, length_app.
Qed.

(** X18: when [gfactor > 1] or [maxiter > 0] is false, [minimize] fails
    with the assertion error of [bracket] and has not called the objective:
    the caller's state is as it was. *)
Theorem minimize_refused (g : T -> W -> T * W) (x0 x1 : option T)
    (a b gfactor rtol atol : T) (maxiter : Z) (w : W) :
  (gfactor >? of_int 1) = false \/ (maxiter <= 0)%Z ->
  minimize brent g x0 x1 a b gfactor rtol atol maxiter w = (Raised, w).
Proof.
  intros Hpre. unfold minimize, minimize_calls.
  assert (E : bracket x0 x1 a b gfactor rtol atol maxiter = AssertionError).
  { unfold bracket. destruct Hpre as [Hg|Hm].
    - rewrite Hg. reflexivity.
    - destruct (gfactor >? of_int 1); cbn [bind assert]; auto.
      destruct (Z.gtb_spec maxiter 0); [lia|reflexivity]. }
  rewrite E. reflexivity.
Qed.

End MinimizeRuns.

(** ** The further properties, on concrete inputs *)

Section FurtherRuns.

Lemma _sort_canonical_witness :
  n_lt 3%float 1%float = false /\
  (2%float, 20%float) = (2%float, 20%float) /\
  ((1, 10, 3, 30)%float = (3, 30, 1, 10)%float \/
   (1, 10, 3, 30)%float = (1, 10, 3, 30)%float) /\
  _sort 1%float 2%float 3%float 10%float 20%float 30%float
    = (1, 2, 3, 10, 20, 30)%float.
Proof.
  apply (@_sort_canonical float _ _ 3 2 1 30 20 10 1 2 3 10 20 30)%float.
  vm_compute. reflexivity.
Defined.

Lemma _ensure_boundary_fixes_inside_witness :
  _ensure_boundary 0.5%float 0%float 1%float = 0.5%float.
Proof.
  apply (@_ensure_boundary_fixes_inside float _ _); vm_compute; reflexivity.
Defined.

Lemma _boundary_inside_not_equal_witness :
  _boundary_equal 0.5%float 0%float 1%float = false.
Proof.
  apply (@_boundary_inside_not_equal float _ _). vm_compute. reflexivity.
Defined.

Lemma _initialize_interval_both_witness :
  _initialize_interval (Some 3%float) (Some 1%float) 0%float 4%float 2%float
                       _eps _eps
    = (if n_lt 1%float 3%float then (1, 3)%float else (3, 1)%float) /\
  (let '(p, q) := _initialize_interval (Some 3%float) (Some 1%float) 0%float
                    4%float 2%float _eps _eps in
   n_lt q p = false).
Proof.
  exact (@_initialize_interval_both float _ _ 3 1 0 4 2 _eps _eps)%float.
Defined.

Lemma bracket_values_at_abscissas_witness :
  (0.0625 = parabola 0.75 0.5 /\ 0 = parabola 0.75 0.75 /\
   0.0625 = parabola 0.75 1)%float.
Proof.
  apply (@bracket_values_at_abscissas float _ (parabola 0.75%float)
           (Some 0%float) (Some 0.5%float) 0%float 1%float 2%float _eps _eps
           500 0.5%float 0.75%float 1%float 0.0625%float 0%float 0.0625%float
           1%Z).
  vm_compute. reflexivity.
Defined.

Lemma bracket_exit_code_witness :
  (1 = 1 \/ 1 = 2 \/ 1 = 3 \/ 1 = 4 \/ 1 = 5)%Z.
Proof.
  apply (@bracket_exit_code float _ (parabola 0.75%float)
           (Some 0%float) (Some 0.5%float) 0%float 1%float 2%float _eps _eps
           500 (0.5, 0.75, 1, 0.0625, 0, 0.0625)%float 1%Z).
  vm_compute. reflexivity.
Defined.

Lemma bracket_max_iterations_evaluations_witness :
  Z.of_nat (length (evals downhill
     (bracket (Some 0%float) (Some 1%float) (- inf)%float inf 2%float
              _eps _eps 3)))
  = (3 + 3)%Z.
Proof.
  apply (@bracket_max_iterations_evaluations float _ downhill
           (Some 0%float) (Some 1%float) (- inf)%float inf 2%float _eps _eps
           3 (7, 15, 31, -7, -15, -31)%float).
  vm_compute. reflexivity.
Defined.

Lemma bracket_failure_evaluations_witness :
  evals (parabola 2%float)
        (bracket (Some 5%float) (Some 6%float) 0%float 1%float 2%float
                 _eps _eps 500) = []
    /\ (n_lt (of_int 1) 2%float = false \/ (500 <= 0)%Z) \/
  evals (parabola 2%float)
        (bracket (Some 5%float) (Some 6%float) 0%float 1%float 2%float
                 _eps _eps 500)
    = [fst (_initialize_interval (Some 5%float) (Some 6%float) 0%float
              1%float 2%float _eps _eps);
       snd (_initialize_interval (Some 5%float) (Some 6%float) 0%float
              1%float 2%float _eps _eps)]
    /\ n_lt (of_int 1) 2%float = true /\ (0 < 500)%Z.
Proof.
  apply (@bracket_failure_evaluations float _ (parabola 2%float)
           (Some 5%float) (Some 6%float) 0%float 1%float 2%float _eps _eps 500).
  vm_compute. reflexivity.
Defined.

Lemma minimize_composes_witness :
  minimize brent_once
           (counted (fun x (w : unit) => (parabola 0.75%float x, w)))
           (Some 0%float) (Some 0.5%float) 0%float 1%float 2%float _eps _eps
           500 (0%nat, tt)
    = (Returned (0.75%float, 0%float, 5%Z), (5%nat, tt)).
Proof.
  assert (Hbracket :
            run (parabola 0.75%float)
                (bracket (Some 0%float) (Some 0.5%float) 0%float 1%float
                         2%float _eps _eps 500)
            = Returned ((0.5, 0.75, 1, 0.0625, 0, 0.0625)%float, 1%Z)).
  { vm_compute. reflexivity. }
  assert (Hbrent :
            run (parabola 0.75%float)
                (brent_once 0.5%float 1%float 0.0625%float 0.0625%float
                            0.75%float 0%float _eps _eps 500)
            = Returned (0.75%float, 0%float, tt)).
  { vm_compute. reflexivity. }
  exact (@minimize_composes float _ unit brent_once unit
           (parabola 0.75%float) (Some 0%float) (Some 0.5%float) 0%float
           1%float 2%float _eps _eps 500
           0.5%float 0.75%float 1%float 0.0625%float 0%float 0.0625%float 1%Z
           0.75%float 0%float tt tt Hbracket Hbrent).
Defined.

Lemma minimize_refused_witness :
  minimize brent_once
           (counted (fun x (w : unit) => (parabola 0.75%float x, w)))
           (Some 0%float) (Some 0.5%float) 0%float 1%float 1%float _eps _eps
           500 (0%nat, tt)
    = (Raised, (0%nat, tt)).
Proof.
  apply (@minimize_refused float _ unit brent_once (nat * unit)%type).
  left. vm_compute. reflexivity.
Defined.

Lemma bracket_hit_boundary_on_bound_witness :
  exists y0 y1 y2 g0 g1 g2 : Q,
    run Qopp (bracket (Some 0%Q) (Some (1 # 4)) 0%Q 1%Q 2%Q _eps_Q _eps_Q 500)
      = Returned ((y0, y1, y2, g0, g1, g2), 2%Z) /\
    ((0 <= y0 /\ y2 <= 1) /\ (y0 == 0 \/ y2 == 1))%Q.
Proof.
  do 6 eexists. split; [vm_compute; reflexivity|].
  eapply (@bracket_hit_boundary_on_bound Qopp (Some 0%Q) (Some (1 # 4))
            0%Q 1%Q 2%Q _eps_Q _eps_Q 500).
  vm_compute. reflexivity.
Defined.

Lemma _ensure_boundary_clamps_witness :
  ((0 <= _ensure_boundary (3 # 2) 0 1 /\ _ensure_boundary (3 # 2) 0 1 <= 1) /\
   (3 # 2 < 0 -> _ensure_boundary (3 # 2) 0 1 = 0) /\
   (1 < 3 # 2 -> _ensure_boundary (3 # 2) 0 1 = 1))%Q.
Proof.
  apply (@_ensure_boundary_clamps (3 # 2) 0%Q 1%Q). discriminate.
Defined.

Lemma _ensure_boundary_reversed_bounds_witness :
  _ensure_boundary (1 # 2) 1%Q 0%Q = 1%Q.
Proof.
  apply (@_ensure_boundary_reversed_bounds (1 # 2) 1%Q 0%Q). reflexivity.
Defined.

Lemma bracket_second_point_only_witness :
  _initialize_interval None (Some (1 # 2)) 0%Q 1%Q 2%Q _eps_Q _eps_Q
    = (1 # 2, 1 # 2) /\
  run (parabola (3 # 4))
      (bracket None (Some (1 # 2)) 0%Q 1%Q 2%Q _eps_Q _eps_Q 500)
    = Returned ((1 # 2, 1 # 2, 1 # 2, parabola (3 # 4) (1 # 2),
                 parabola (3 # 4) (1 # 2), parabola (3 # 4) (1 # 2)), 3%Z) /\
  evals (parabola (3 # 4))
        (bracket None (Some (1 # 2)) 0%Q 1%Q 2%Q _eps_Q _eps_Q 500)
    = [1 # 2; 1 # 2].
Proof.
  apply (@bracket_second_point_only (parabola (3 # 4)) (1 # 2) 0%Q 1%Q 2%Q
           _eps_Q _eps_Q 500); try reflexivity; discriminate.
Defined.

Lemma _initialize_interval_first_only_witness :
  exists q : Q,
    _initialize_interval (Some (1 # 4)) None 0%Q 1%Q 2%Q _eps_Q _eps_Q
      = (1 # 4, q) /\
    ((0 <= q /\ q <= 1) /\
     Qabs (q - (1 # 4)) <= 10 * 2 * _tol (1 # 4) _eps_Q _eps_Q /\
     (1 - (1 # 4) < (1 # 4) - 0 -> q <= 1 # 4) /\
     ((1 # 4) - 0 <= 1 - (1 # 4) -> 1 # 4 <= q))%Q.
Proof.
  apply (@_initialize_interval_first_only (1 # 4) 0%Q 1%Q 2%Q _eps_Q _eps_Q);
    try reflexivity; discriminate.
Defined.

Lemma _initialize_interval_default_witness :
  ((1 <= 0 -> 0 <= 2 ->
    fst (_initialize_interval None None 1 2 2 _eps_Q _eps_Q) = 0) /\
   (0 < 1 -> fst (_initialize_interval None None 1 2 2 _eps_Q _eps_Q) = 1) /\
   (2 < 0 -> fst (_initialize_interval None None 1 2 2 _eps_Q _eps_Q) = 2))%Q.
Proof.
  apply (@_initialize_interval_default 1%Q 2%Q 2%Q _eps_Q _eps_Q). discriminate.
Defined.

Lemma _resolve_equal_fvalue_convex_witness :
  exists t,
    run (parabola (1 # 2))
        (_resolve_equal_fvalue 0%Q 1%Q (parabola (1 # 2) 0%Q)
                               (parabola (1 # 2) 1%Q))
      = Returned (t, 1%Z) /\
    increasing t /\ is_bracket t.
Proof.
  apply (@_resolve_equal_fvalue_convex (parabola (1 # 2)) 0%Q 1%Q).
  - apply parabola_proper.
  - apply parabola_strictly_convex.
  - discriminate.
  - reflexivity.
Defined.

Lemma _tol_bounds_witness :
  (_eps_Q <= _tol (- (3)) _eps_Q _eps_Q /\
   _tol (- - (3)) _eps_Q _eps_Q == _tol (- (3)) _eps_Q _eps_Q)%Q.
Proof.
  apply (@_tol_bounds (- (3))%Q _eps_Q _eps_Q). discriminate.
Defined.

Lemma bracket_returns_within_witness :
  exists t e,
    run (parabola (3 # 4))
        (bracket None None 0%Q 1%Q 2%Q _eps_Q _eps_Q 500) = Returned (t, e) /\
    within 0 1 t /\ nondecreasing t.
Proof.
  apply (@bracket_returns_within (parabola (3 # 4)) None None
           0%Q 1%Q 2%Q _eps_Q _eps_Q 500);
    try reflexivity; try discriminate; try exact I.
  apply parabola_proper.
Defined.

End FurtherRuns.
